(** * traefik-forward-filter: a shallow embedding of the forward filter

    The development follows the Go sources:
    - [connectionheader/connectionheader.go] (and the copy of it at the end of
      the header file of package [traefik_forward_filter]): the hop-by-hop
      sanitizer [Remover] / [removeConnectionHeaders];
    - the header file of package [traefik_forward_filter]: [hopHeaders] and
      [writeHeader], in its two variants (with and without the allocation of
      the shadow request's header map);
    - [forwardfilter.go]: [Config], [ForwardFilter], [New], [ServeHTTP].

    Go's [http.Header] is a [map[string][]string]; it is modelled by stdpp's
    [gmap string (list string)], a nil map by [None].  The response writer,
    the downstream handler, the log and the HTTP client are collaborators:
    calls to them are recorded as a trace of events. *)

From Stdlib Require Import ZArith String Ascii List Bool Lia.
From stdpp Require Import base option list gmap strings fin_maps.

Local Open Scope string_scope.
Local Open Scope Z_scope.

(** ** Models of the Go standard-library functions called by the sources *)

Module GoStd.

(** [textproto.isASCIISpace] *)
Definition isASCIISpace (b : ascii) : bool :=
  (Ascii.eqb b " " || Ascii.eqb b "009" || Ascii.eqb b "010" || Ascii.eqb b "013")%char.

Fixpoint trimLeft (s : string) : string :=
  match s with
  | String c s' => if isASCIISpace c then trimLeft s' else s
  | EmptyString => EmptyString
  end.

Fixpoint trimRight (s : string) : string :=
  match s with
  | EmptyString => EmptyString
  | String c s' =>
      match trimRight s' with
      | EmptyString => if isASCIISpace c then EmptyString else String c EmptyString
      | t => String c t
      end
  end.

(** [textproto.TrimString]: leading, then trailing ASCII space is dropped. *)
Definition TrimString (s : string) : string := trimRight (trimLeft s).

(** [strings.Split(s, sep)] for a one-byte separator: [n] separators give
    [n + 1] pieces, the empty string gives one empty piece. *)
Fixpoint Split (s : string) (sep : ascii) : list string :=
  match s with
  | EmptyString => [EmptyString]
  | String c s' =>
      if Ascii.eqb c sep then EmptyString :: Split s' sep
      else match Split s' sep with
           | x :: xs => String c x :: xs
           | [] => [String c EmptyString]
           end
  end.

(** [strings.Join] *)
Fixpoint Join (elems : list string) (sep : string) : string :=
  match elems with
  | [] => ""
  | [x] => x
  | x :: rest => x +:+ sep +:+ Join rest sep
  end.

(** [strings.IndexByte] and [strings.LastIndexByte]; [None] is Go's [-1]. *)
Fixpoint IndexByte (s : string) (c : ascii) : option nat :=
  match s with
  | EmptyString => None
  | String a s' => if Ascii.eqb a c then Some 0%nat else S <$> IndexByte s' c
  end.

Fixpoint LastIndexByte (s : string) (c : ascii) : option nat :=
  match s with
  | EmptyString => None
  | String a s' =>
      match LastIndexByte s' c with
      | Some i => Some (S i)
      | None => if Ascii.eqb a c then Some 0%nat else None
      end
  end.

(** The slices [s[a:b]] and [s[a:]]. *)
Definition slice (s : string) (a b : nat) : string := substring a (b - a) s.
Definition sliceFrom (s : string) (a : nat) : string :=
  substring a (String.length s - a) s.

(** [net.SplitHostPort]; [None] stands for a non-nil error. *)
Definition SplitHostPort (hostport : string) : option (string * string) :=
  match LastIndexByte hostport ":" with
  | None => None                                   (* missing port *)
  | Some i =>
      let finish (host : string) (j k : nat) :=
        if IndexByte (sliceFrom hostport j) "[" is Some _ then None
        else if IndexByte (sliceFrom hostport k) "]" is Some _ then None
        else Some (host, sliceFrom hostport (S i)) in
      match hostport with
      | String "[" _ =>
          match IndexByte hostport "]" with
          | None => None                           (* missing ']' *)
          | Some e =>
              if (S e =? String.length hostport)%nat then None
              else if (S e =? i)%nat then finish (slice hostport 1 e) 1%nat (S e)
              else None
          end
      | _ =>
          let host := slice hostport 0 i in
          if IndexByte host ":" is Some _ then None  (* too many colons *)
          else finish host 0%nat 0%nat
      end
  end.

(** [url.URL], with the fields the filter reads or writes. *)
Record URL := mkURL {
  url_Scheme : string;
  url_Host : string;          (* host or host:port *)
  url_Path : string;
  url_RawQuery : string
}.

(** [URL.Hostname]: [u.Host] without the port, brackets removed. *)
Definition Hostname (u : URL) : string :=
  let hostport := url_Host u in
  match IndexByte hostport ":" with
  | None => hostport
  | Some colon =>
      match IndexByte hostport "]" with
      | Some i =>
          match slice hostport 0 i with
          | String "[" rest => rest
          | s => s
          end
      | None => slice hostport 0 colon
      end
  end.

(** [textproto.validHeaderFieldByte]: the token characters of RFC 7230. *)
Definition validHeaderFieldByte (c : ascii) : bool :=
  let n := N_of_ascii c in
  ((48 <=? n) && (n <=? 57) || (65 <=? n) && (n <=? 90) || (97 <=? n) && (n <=? 122)
   || existsb (N.eqb n) [33; 35; 36; 37; 38; 39; 42; 43; 45; 46; 94; 95; 96; 124; 126])%N.

Definition isLower (c : ascii) : bool :=
  ((97 <=? N_of_ascii c) && (N_of_ascii c <=? 122))%N.
Definition isUpper (c : ascii) : bool :=
  ((65 <=? N_of_ascii c) && (N_of_ascii c <=? 90))%N.
Definition toUpper (c : ascii) : ascii := ascii_of_N (N_of_ascii c - 32).
Definition toLower (c : ascii) : ascii := ascii_of_N (N_of_ascii c + 32).

(** The canonicalizing loop of [textproto.canonicalMIMEHeaderKey]: upper
    case at the start and after each dash, lower case elsewhere. *)
Fixpoint canonicalize (upper : bool) (a : string) : string :=
  match a with
  | EmptyString => EmptyString
  | String c a' =>
      let c' := if upper && isLower c then toUpper c
                else if negb upper && isUpper c then toLower c
                else c in
      String c' (canonicalize (Ascii.eqb c' "-") a')
  end.

Fixpoint allValid (s : string) : bool :=
  match s with
  | EmptyString => true
  | String c s' => validHeaderFieldByte c && allValid s'
  end.

(** [textproto.CanonicalMIMEHeaderKey] (= [http.CanonicalHeaderKey]): a key
    with a byte that is not a token character is returned unchanged. *)
Definition CanonicalMIMEHeaderKey (s : string) : string :=
  if allValid s then canonicalize true s else s.

(** [http.Header] methods on a non-nil map. *)
Definition Get (h : gmap string (list string)) (key : string) : string :=
  match h !! CanonicalMIMEHeaderKey key with
  | Some (v :: _) => v
  | _ => ""
  end.

Definition Set_ (h : gmap string (list string)) (key value : string)
  : gmap string (list string) :=
  <[CanonicalMIMEHeaderKey key := [value]]> h.

Definition Del (h : gmap string (list string)) (key : string)
  : gmap string (list string) :=
  delete (CanonicalMIMEHeaderKey key) h.

End GoStd.

Import GoStd.


(** ** Data model *)

(** A run of Go code either returns or panics. *)
Inductive run (A : Type) : Type :=
| Ok (a : A)
| Panic (msg : string).
Arguments Ok {A} a.
Arguments Panic {A} msg.

Definition bind {A B : Type} (c : run A) (k : A -> run B) : run B :=
  match c with
  | Ok a => k a
  | Panic msg => Panic msg
  end.

Notation "'let!' x ':=' c 'in' k" := (bind c (fun x => k))
  (at level 10, x name, c at level 200, k at level 200).

Definition nilMapPanic : string := "assignment to entry in nil map".
Definition nilPointerPanic : string := "invalid memory address or nil pointer dereference".

(** [h[k] = v], [h.Set(k, v)] and [h.Del(k)] on a header map that may be nil:
    writing to a nil map panics, deleting from it does nothing. *)
Definition assign (h : option (gmap string (list string))) (k : string) (v : list string)
  : run (option (gmap string (list string))) :=
  match h with
  | Some m => Ok (Some (<[k := v]> m))
  | None => Panic nilMapPanic
  end.

Definition NSet (h : option (gmap string (list string))) (key value : string)
  : run (option (gmap string (list string))) :=
  assign h (CanonicalMIMEHeaderKey key) [value].

Definition NDel (h : option (gmap string (list string))) (key : string)
  : option (gmap string (list string)) :=
  (fun m => Del m key) <$> h.

(** The inbound [*http.Request] as the server hands it to a handler; its
    header map is always allocated by [net/http].  [Body] is the content of
    the body stream, [TLS] tells whether [req.TLS != nil]. *)
Record Request := mkRequest {
  Method : string;
  RequestURI : string;
  Host : string;
  RemoteAddr : string;
  TLS : bool;
  Header : gmap string (list string);
  Body : string
}.

Definition setHeader (r : Request) (h : gmap string (list string)) : Request :=
  mkRequest (Method r) (RequestURI r) (Host r) (RemoteAddr r) (TLS r) h (Body r).

Definition setBody (r : Request) (b : string) : Request :=
  mkRequest (Method r) (RequestURI r) (Host r) (RemoteAddr r) (TLS r) (Header r) b.

(** The outbound (shadow) [*http.Request] taken from [requestPool]: the four
    fields the filter writes, each of which may be nil. *)
Record ForwardRequest := mkForwardRequest {
  fwd_Method : string;
  fwd_URL : option URL;
  fwd_Header : option (gmap string (list string));
  fwd_Body : option string
}.

(** [new(http.Request)] *)
Definition newRequest : ForwardRequest := mkForwardRequest "" None None None.

(** [*http.Response] *)
Record Response := mkResponse {
  StatusCode : Z;
  Status : string;
  resp_Header : gmap string (list string);
  resp_Body : string;
  ContentLength : Z
}.

(** What [f.client.Do] returns: [err == nil] with a response, or an error
    with or without a response. *)
Inductive DoResult :=
| DoOk (response : Response)
| DoErr (err : string) (response : option Response).

(** The result of a dispatch, with the number of bytes the client has read
    from the shadow request's body when it returns. *)
Record DoOutcome := mkDoOutcome {
  do_result : DoResult;
  do_read : nat
}.

(** Calls on the collaborators, in the order they are made. *)
Inductive event :=
| EvDo (forwardReq : ForwardRequest)         (* f.client.Do(forwardReq) *)
| EvLog (msg : string)                       (* log.Println *)
| EvNext (r : Request)                       (* f.next.ServeHTTP(rw, r) *)
| EvSetHeader (key value : string)           (* rw.Header().Set(key, value) *)
| EvWriteHeader (code : Z)                   (* rw.WriteHeader(code) *)
| EvCopy (body : string)                     (* io.Copy(rw, response.Body) *)
| EvCloseResponseBody                        (* response.Body.Close() *)
| EvCloseRequestBody                         (* r.Body.Close() *)
| EvPut (forwardReq : ForwardRequest).       (* requestPool.Put(forwardReq) *)

(** An [http.Handler], run against the pool. *)
Definition Handler : Type :=
  list ForwardRequest -> Request -> run (list event * list ForwardRequest).

(** ** connectionheader.go *)

Module ConnectionHeader.

Definition connectionHeader : string := "Connection".
Definition upgradeHeader : string := "Upgrade".

Definition removeConnectionHeaders (h : gmap string (list string))
  : gmap string (list string) :=
  foldl (fun h f =>
           foldl (fun h sf =>
                    let sf := TrimString sf in
                    if String.eqb sf "" then h else Del h sf)
                 h (Split f ","))
        h (default [] (h !! connectionHeader)).

(** The header collection after the two statements of [Remover]'s closure. *)
Definition sanitize (h : gmap string (list string)) : gmap string (list string) :=
  Del (removeConnectionHeaders h) connectionHeader.

Definition Remover (next : Handler) : Handler :=
  fun pool req => next pool (setHeader req (sanitize (Header req))).

End ConnectionHeader.

Import ConnectionHeader.

(** ** The header file of package traefik_forward_filter *)

Definition xForwardedMethod : string := "X-Forwarded-Method".
Definition XForwardedProto : string := "X-Forwarded-Proto".
Definition XForwardedFor : string := "X-Forwarded-For".
Definition XForwardedHost : string := "X-Forwarded-Host".
Definition XForwardedUri : string := "X-Forwarded-Uri".
Definition Connection : string := "Connection".
Definition KeepAlive : string := "Keep-Alive".
Definition Te : string := "Te".
Definition Trailers : string := "Trailers".
Definition TransferEncoding : string := "Transfer-Encoding".
Definition Upgrade : string := "Upgrade".

Definition hopHeaders : list string :=
  [Connection; KeepAlive; Te; Trailers; TransferEncoding; Upgrade].

Definition setFwdHeader (q : ForwardRequest) (h : option (gmap string (list string)))
  : ForwardRequest :=
  mkForwardRequest (fwd_Method q) (fwd_URL q) h (fwd_Body q).

Definition setFwdURL (q : ForwardRequest) (u : option URL) : ForwardRequest :=
  mkForwardRequest (fwd_Method q) u (fwd_Header q) (fwd_Body q).

(** The loop [for k, vv := range req.Header
      { forwardReq.Header[k] = append(req.Header[k], vv...) }]
    on the header map [h] of the shadow request. *)
Definition copyAll (req : Request) (h : option (gmap string (list string)))
  : run (option (gmap string (list string))) :=
  map_fold (fun k vv acc =>
              let! h := acc in assign h k (default [] (Header req !! k) ++ vv))
           (Ok h) (Header req).

(** The loop over [allowedHeaders], on the freshly made map [headers]. *)
Definition copyAllowed (req : Request) (headers : gmap string (list string))
    (allowedHeaders : list string) : gmap string (list string) :=
  foldl (fun headers header =>
           let v := Get (Header req) header in
           if String.eqb v "" then headers else Set_ headers header v)
        headers allowedHeaders.

(** From the loop over [hopHeaders] to the end of [writeHeader]; this text is
    the same in both variants of the function.  [h] is [forwardReq.Header]. *)
Definition writeForwarded (req : Request) (forwardReq : ForwardRequest)
    (h : option (gmap string (list string))) : run ForwardRequest :=
  let h := foldl NDel h hopHeaders in
  let! u := match fwd_URL forwardReq with
            | Some u => Ok u
            | None => Panic nilPointerPanic
            end in
  let! h := NSet h "Host" (Hostname u) in
  let! h := match SplitHostPort (RemoteAddr req) with
            | Some (clientIP, _) =>
                let clientIP :=
                  match Header req !! XForwardedFor with
                  | Some prior => Join prior ", " +:+ ", " +:+ clientIP
                  | None => clientIP
                  end in
                NSet h XForwardedFor clientIP
            | None => Ok h
            end in
  let! h := NSet h xForwardedMethod (Method req) in
  let! h := NSet h XForwardedHost (Host req) in
  let! h := NSet h XForwardedUri (RequestURI req) in
  let! h := (let xfp := Get (Header req) XForwardedProto in
             if negb (String.eqb xfp "") then NSet h XForwardedProto xfp
             else if TLS req then NSet h XForwardedProto "https"
             else NSet h XForwardedProto "http") in
  Ok (setFwdHeader forwardReq h).

(** [writeHeader] of the variant that first allocates [forwardReq.Header];
    it is the one in the file that also defines [Remover], which [New] calls. *)
Definition writeHeader (req : Request) (forwardReq : ForwardRequest)
    (allowedHeaders : list string) : run ForwardRequest :=
  let h : gmap string (list string) := ∅ in
  let! h := (if (length allowedHeaders =? 0)%nat then copyAll req (Some h)
             else Ok (Some (copyAllowed req h allowedHeaders))) in
  writeForwarded req forwardReq h.

(** [writeHeader] of the variant without the allocation: the copy-all loop
    writes to [forwardReq.Header] as the pool handed it out. *)
Module NoAlloc.

Definition writeHeader (req : Request) (forwardReq : ForwardRequest)
    (allowedHeaders : list string) : run ForwardRequest :=
  let! h := (if (length allowedHeaders =? 0)%nat
             then copyAll req (fwd_Header forwardReq)
             else
               let headers : gmap string (list string) := ∅ in
               Ok (Some (copyAllowed req headers allowedHeaders))) in
  writeForwarded req forwardReq h.

End NoAlloc.

(** ** forwardfilter.go *)

Definition FailureIgnore : string := "ignore".
Definition FailureAbort : string := "abort".
Definition DefaultForwardTimeout : Z := 100.       (* milliseconds *)
Definition defaultFailureStatusCode : list Z := [500; 502; 503; 504].
Definition StatusBadGateway : Z := 502.
Definition MethodGet : string := "GET".
Definition MethodPost : string := "POST".

(** [ForwardHeaders] is a Go map; it is kept as the list of its entries in
    the order the [range] loop visits them. *)
Record Config := mkConfig {
  Address : string;
  InsecureSkipVerify : bool;
  ForwardHeaders : list (string * string);
  RequestHeaders : list string;
  RequestWithBody : bool;
  RequestTimeout : Z;
  ResponseHeaders : list string;
  FailurePolicy : string;
  FailureStatusCode : list Z
}.

(** [ForwardFilter]: the embedded [Config], the client (its [Do] method) and
    the parsed address.  The [next] handler is opaque: a call to it is the
    event [EvNext]. *)
Record ForwardFilter := mkForwardFilter {
  config : Config;
  client : ForwardRequest -> DoOutcome;
  u : URL
}.

(** [requestPool.Get()], with [New] of the pool when it is empty. *)
Definition requestPool_Get (pool : list ForwardRequest)
  : ForwardRequest * list ForwardRequest :=
  match pool with
  | q :: rest => (q, rest)
  | [] => (newRequest, [])
  end.

(** The first deferred function of [ServeHTTP]: the fields are reset before
    the request goes back to the pool. *)
Definition resetRequest (forwardReq : ForwardRequest) : ForwardRequest :=
  mkForwardRequest MethodGet None None None.

(** The loop over [f.ResponseHeaders] of the deferred function, as the calls
    [rw.Header().Set(header, v)] it makes. *)
Definition relayHeaders (f : ForwardFilter) (response : Response) : list event :=
  flat_map (fun header =>
              let v := Get (resp_Header response) header in
              if negb (String.eqb v "") then [EvSetHeader header v] else [])
           (ResponseHeaders (config f)).

(** "bad status || 2xx with respond": the tail of the deferred function. *)
Definition respond (f : ForwardFilter) (response : Response) : list event :=
  relayHeaders f response
  ++ [EvWriteHeader (StatusCode response)]
  ++ (if 0 <? ContentLength response
      then [EvCopy (resp_Body response); EvCloseResponseBody]
      else []).

(** The deferred function declared after [f.client.Do]; [st] holds the
    variables [response] and [err] as they are when it runs. *)
Definition deferredRespond (f : ForwardFilter) (isPass : bool) (st : DoResult)
    (r : Request) : list event :=
  if isPass then []
  else match st with
       | DoErr err response =>
           EvLog err ::
           (if String.eqb (FailurePolicy (config f)) FailureIgnore then [EvNext r]
            else match response with
                 | None => [EvWriteHeader StatusBadGateway]
                 | Some response => respond f response
                 end)
       | DoOk response => respond f response
       end.

(** The loop over [f.ResponseHeaders] writing with [Set] into the header map
    [h]: [r.Header] on the pass path, [rw.Header()] on the relay path. *)
Definition allowlisted (f : ForwardFilter) (response : Response)
    (h : gmap string (list string)) : gmap string (list string) :=
  foldl (fun h header =>
           let v := Get (resp_Header response) header in
           if negb (String.eqb v "") then Set_ h header v else h)
        h (ResponseHeaders (config f)).

(** The inbound request after the merge on the pass path. *)
Definition mergeHeaders (f : ForwardFilter) (response : Response) (r : Request)
  : Request :=
  setHeader r (allowlisted f response (Header r)).

(** What [r.Body] holds once it is the buffer behind the tee reader and the
    client has read [n] bytes through it. *)
Definition teeBuffer (r : Request) (n : nat) : string := substring 0 n (Body r).

(** The shadow request as it is passed to [f.client.Do]. *)
Definition buildForwardReq (f : ForwardFilter) (forwardReq : ForwardRequest)
    (r : Request) : run ForwardRequest :=
  let u := u f in
  let u := if String.eqb (url_Path u) ""
           then mkURL (url_Scheme u) (url_Host u) (RequestURI r) (url_RawQuery u)
           else u in
  let forwardReq := setFwdURL forwardReq (Some u) in
  let! forwardReq := writeHeader r forwardReq (RequestHeaders (config f)) in
  let! h := foldl (fun acc kv =>
                     let! h := acc in NSet h ("X-Forwarded-" +:+ kv.1) kv.2)
                  (Ok (fwd_Header forwardReq)) (ForwardHeaders (config f)) in
  let forwardReq := setFwdHeader forwardReq h in
  if RequestWithBody (config f) then
    let ct := Get (Header r) "Content-Type" in
    let! h := (if negb (String.eqb ct "")
               then NSet (fwd_Header forwardReq) "Content-Type" ct
               else Ok (fwd_Header forwardReq)) in
    Ok (mkForwardRequest MethodPost (fwd_URL forwardReq) h (Some (Body r)))
  else Ok forwardReq.

Definition ServeHTTP (f : ForwardFilter) : Handler :=
  fun pool r =>
    let '(forwardReq, pool) := requestPool_Get pool in
    let! forwardReq := buildForwardReq f forwardReq r in
    let out := client f forwardReq in
    let r := if RequestWithBody (config f) then setBody r (teeBuffer r (do_read out))
             else r in
    let handled :=
      match do_result out with
      | DoErr err response => deferredRespond f false (DoErr err response) r
      | DoOk response =>
          if (200 <=? StatusCode response) && (StatusCode response <? 300)
             && (ContentLength response =? 0)
          then EvNext (mergeHeaders f response r)
               :: deferredRespond f true (DoOk response) r
          else
            let st := if existsb (Z.eqb (StatusCode response))
                                 (FailureStatusCode (config f))
                      then DoErr (Status response) (Some response)
                      else DoOk response in
            deferredRespond f false st r
      end in
    Ok (EvDo forwardReq :: handled
        ++ (if RequestWithBody (config f) then [EvCloseRequestBody] else [])
        ++ [EvPut (resetRequest forwardReq)],
        resetRequest forwardReq :: pool).

Definition canonicalHeaders (headers : list string) : list string :=
  map CanonicalMIMEHeaderKey headers.

Section Construction.

(** [url.Parse], and the [http.Client] built from the timeout in
    milliseconds and the TLS switch. *)
Variable url_Parse : string -> option URL.
Variable http_Client : Z -> bool -> ForwardRequest -> DoOutcome.

Definition New (config : Config) : option Handler :=
  match url_Parse (Address config) with
  | None => None
  | Some u =>
      let timeout := if 0 <? RequestTimeout config then RequestTimeout config
                     else DefaultForwardTimeout in
      let client := http_Client timeout (InsecureSkipVerify config) in
      let policy :=
        if String.eqb (FailurePolicy config) "" then Some FailureIgnore
        else if String.eqb (FailurePolicy config) FailureIgnore
                || String.eqb (FailurePolicy config) FailureAbort
             then Some (FailurePolicy config)
             else None in
      match policy with
      | None => None                              (* illegal failurePolicy *)
      | Some policy =>
          let codes := if (length (FailureStatusCode config) =? 0)%nat
                       then defaultFailureStatusCode
                       else FailureStatusCode config in
          let config :=
            mkConfig (Address config) (InsecureSkipVerify config)
                     (ForwardHeaders config)
                     (canonicalHeaders (RequestHeaders config))
                     (RequestWithBody config) (RequestTimeout config)
                     (canonicalHeaders (ResponseHeaders config))
                     policy codes in
          Some (Remover (ServeHTTP (mkForwardFilter config client u)))
      end
  end.

End Construction.

(** ** Observations on a run *)

Definition isNext (e : event) : bool :=
  match e with EvNext _ => true | _ => false end.

Definition isWriteHeader (e : event) : bool :=
  match e with EvWriteHeader _ => true | _ => false end.

(** The calls made on the response writer [rw]. *)
Definition touchesWriter (e : event) : bool :=
  match e with
  | EvSetHeader _ _ | EvWriteHeader _ | EvCopy _ => true
  | _ => false
  end.

Definition isCloseResponseBody (e : event) : bool :=
  match e with EvCloseResponseBody => true | _ => false end.

Definition nextCalls (t : list event) : nat := length (List.filter isNext t).
Definition directWrites (t : list event) : nat := length (List.filter isWriteHeader t).
Definition writerEvents (t : list event) : list event := List.filter touchesWriter t.
Definition responseBodyCloses (t : list event) : nat :=
  length (List.filter isCloseResponseBody t).

(** The requests the downstream handler is called with, and the shadow
    requests that are dispatched. *)
Definition nextRequests (t : list event) : list Request :=
  flat_map (fun e => match e with EvNext r => [r] | _ => [] end) t.

Definition dispatchedRequests (t : list event) : list ForwardRequest :=
  flat_map (fun e => match e with EvDo q => [q] | _ => [] end) t.

(** The response writer as the caller observes it: the header map under
    construction, the status line once written with the headers sent along,
    and the body bytes. *)
Record ResponseWriter := mkResponseWriter {
  rw_Header : gmap string (list string);
  rw_status : option Z;
  rw_sent : gmap string (list string);
  rw_body : string
}.

Definition rwWriteHeader (rw : ResponseWriter) (code : Z) : ResponseWriter :=
  match rw_status rw with
  | Some _ => rw
  | None => mkResponseWriter (rw_Header rw) (Some code) (rw_Header rw) (rw_body rw)
  end.

Definition rwStep (rw : ResponseWriter) (e : event) : ResponseWriter :=
  match e with
  | EvSetHeader key value =>
      mkResponseWriter (Set_ (rw_Header rw) key value) (rw_status rw) (rw_sent rw)
                       (rw_body rw)
  | EvWriteHeader code => rwWriteHeader rw code
  | EvCopy body =>
      let rw := rwWriteHeader rw 200 in
      mkResponseWriter (rw_Header rw) (rw_status rw) (rw_sent rw) (rw_body rw +:+ body)
  | _ => rw
  end.

Definition rwRun (rw : ResponseWriter) (t : list event) : ResponseWriter :=
  foldl rwStep rw t.

Definition freshWriter : ResponseWriter := mkResponseWriter ∅ None ∅ "".

(** The header names a [Connection] header nominates, as the keys
    [removeConnectionHeaders] deletes. *)
Definition connectionTokens (h : gmap string (list string)) : list string :=
  flat_map (fun f =>
              flat_map (fun sf =>
                          let sf := TrimString sf in
                          if String.eqb sf "" then [] else [CanonicalMIMEHeaderKey sf])
                       (Split f ","))
           (default [] (h !! connectionHeader)).

(** The result of each step of the shadow-request builder when no step
    panics. *)
Definition copiedHeaders (req : Request) (allowedHeaders : list string)
  : gmap string (list string) :=
  if (length allowedHeaders =? 0)%nat then (fun vv : list string => (vv ++ vv)%list) <$> Header req
  else copyAllowed req ∅ allowedHeaders.

Definition forwardedFor (req : Request) (clientIP : string) : string :=
  match Header req !! XForwardedFor with
  | Some prior => Join prior ", " +:+ ", " +:+ clientIP
  | None => clientIP
  end.

Definition forwardedHeaders (req : Request) (u : URL) (m : gmap string (list string))
  : gmap string (list string) :=
  let m := foldl Del m hopHeaders in
  let m := Set_ m "Host" (Hostname u) in
  let m := match SplitHostPort (RemoteAddr req) with
           | Some (clientIP, _) => Set_ m XForwardedFor (forwardedFor req clientIP)
           | None => m
           end in
  let m := Set_ m xForwardedMethod (Method req) in
  let m := Set_ m XForwardedHost (Host req) in
  let m := Set_ m XForwardedUri (RequestURI req) in
  let xfp := Get (Header req) XForwardedProto in
  if negb (String.eqb xfp "") then Set_ m XForwardedProto xfp
  else if TLS req then Set_ m XForwardedProto "https"
  else Set_ m XForwardedProto "http".

(** The header names the builder writes on every shadow request, and those
    it writes for the configured static forward headers. *)
Definition builderHeaders : list string :=
  ["Host"; XForwardedFor; xForwardedMethod; XForwardedHost; XForwardedUri;
   XForwardedProto].

Definition staticNames (f : ForwardFilter) : list string :=
  map (fun kv => CanonicalMIMEHeaderKey ("X-Forwarded-" +:+ kv.1))
      (ForwardHeaders (config f)).

Definition targetURL (f : ForwardFilter) (r : Request) : URL :=
  if String.eqb (url_Path (u f)) ""
  then mkURL (url_Scheme (u f)) (url_Host (u f)) (RequestURI r) (url_RawQuery (u f))
  else u f.

Definition staticHeaders (f : ForwardFilter) (m : gmap string (list string))
  : gmap string (list string) :=
  foldl (fun m kv => Set_ m ("X-Forwarded-" +:+ kv.1) kv.2) m (ForwardHeaders (config f)).

Definition shadowHeaders (f : ForwardFilter) (r : Request) : gmap string (list string) :=
  let m := staticHeaders f
             (forwardedHeaders r (targetURL f r)
                (copiedHeaders r (RequestHeaders (config f)))) in
  if RequestWithBody (config f) then
    let ct := Get (Header r) "Content-Type" in
    if negb (String.eqb ct "") then Set_ m "Content-Type" ct else m
  else m.

Definition shadowRequest (f : ForwardFilter) (forwardReq : ForwardRequest) (r : Request)
  : ForwardRequest :=
  if RequestWithBody (config f)
  then mkForwardRequest MethodPost (Some (targetURL f r)) (Some (shadowHeaders f r))
                        (Some (Body r))
  else mkForwardRequest (fwd_Method forwardReq) (Some (targetURL f r))
                        (Some (shadowHeaders f r)) (fwd_Body forwardReq).

(** The request the filter holds after the dispatch, and the events between
    the dispatch and the deferred cleanup. *)
Definition afterDispatch (f : ForwardFilter) (r : Request) (out : DoOutcome) : Request :=
  if RequestWithBody (config f) then setBody r (teeBuffer r (do_read out)) else r.

Definition handled (f : ForwardFilter) (r : Request) (out : DoOutcome) : list event :=
  let r := afterDispatch f r out in
  match do_result out with
  | DoErr err response => deferredRespond f false (DoErr err response) r
  | DoOk response =>
      if (200 <=? StatusCode response) && (StatusCode response <? 300)
         && (ContentLength response =? 0)
      then EvNext (mergeHeaders f response r)
           :: deferredRespond f true (DoOk response) r
      else
        let st := if existsb (Z.eqb (StatusCode response))
                             (FailureStatusCode (config f))
                  then DoErr (Status response) (Some response)
                  else DoOk response in
        deferredRespond f false st r
  end.

(** The outcome of dispatching the shadow request built for [r]. *)
Definition dispatch (f : ForwardFilter) (pool : list ForwardRequest) (r : Request)
  : DoOutcome :=
  client f (shadowRequest f (requestPool_Get pool).1 r).

(** ** Concrete scenarios *)

Module Scenario.

Definition authority : URL := mkURL "http" "auth.internal:9000" "" "".

Definition baseConfig (policy : string) (mirror : bool) : Config :=
  mkConfig "http://auth.internal:9000" false [] [] mirror 0 ["X-Auth-User"]
           policy defaultFailureStatusCode.

(** A filter whose client answers every dispatch with [out]. *)
Definition filterWith (cfg : Config) (out : DoOutcome) : ForwardFilter :=
  mkForwardFilter cfg (fun _ => out) authority.

Definition inbound : Request :=
  mkRequest "POST" "/orders?id=7" "shop.example" "2.2.2.2:51234" false
            {[ "Accept" := ["text/html"; "application/json"];
               "Keep-Alive" := ["timeout=5"];
               "X-Forwarded-Method" := ["DELETE"];
               "X-Forwarded-For" := ["1.1.1.1"] ]}
            "payload".

Definition unavailable : Response :=
  mkResponse 503 "503 Service Unavailable" {[ "X-Auth-User" := ["bob"] ]} "down" 4.

Definition noContent : Response :=
  mkResponse 204 "204 No Content" {[ "X-Auth-User" := ["bob"] ]} "" 0.

(** A 200 whose length is not announced (chunked): [ContentLength] is -1. *)
Definition chunked : Response :=
  mkResponse 200 "200 OK" ∅ "hello" (-1).

Definition substitute : Response :=
  mkResponse 200 "200 OK" {[ "X-Auth-User" := ["bob"] ]} "hello" 5.

(** A configuration that lists 200 among the failure statuses. *)
Definition okIsFailure : Config :=
  mkConfig "http://auth.internal:9000" false [] [] false 0 ["X-Auth-User"]
           FailureIgnore [200].

Definition refused : DoOutcome :=
  mkDoOutcome (DoErr "dial tcp: connect: connection refused" None) 0.

(** A request that arrived over a Unix-domain socket: the peer address has
    no port. *)
Definition local : Request :=
  mkRequest "GET" "/" "shop.example" "@" false ∅ "".

(** The authority answers [response]; the policy is [policy]. *)
Definition answering (policy : string) (response : Response) : ForwardFilter :=
  filterWith (baseConfig policy false) (mkDoOutcome (DoOk response) 0).

(** The authority cannot be reached; [mirror] is [RequestWithBody]. *)
Definition unreachable (mirror : bool) : ForwardFilter :=
  filterWith (baseConfig FailureIgnore mirror) refused.

(** A static forward header named [For]. *)
Definition staticFor : ForwardFilter :=
  filterWith (mkConfig "http://auth.internal:9000" false [("For", "9.9.9.9")] []
                       false 0 [] FailureIgnore defaultFailureStatusCode)
             refused.

(** A pool-fresh shadow request with its target URL set. *)
Definition fresh : ForwardRequest := setFwdURL newRequest (Some authority).

End Scenario.

(** ** The rest of forwardfilter.go *)

(** [CreateConfig]: a pointer to the zero [Config]. *)
Definition CreateConfig : Config := mkConfig "" false [] [] false 0 [] "" [].

(** The requests handed back to the pool during a run. *)
Definition putRequests (t : list event) : list ForwardRequest :=
  flat_map (fun e => match e with EvPut q => [q] | _ => [] end) t.

Definition requestBodyCloses (t : list event) : nat :=
  length (List.filter (fun e => match e with EvCloseRequestBody => true | _ => false end) t).

Definition logged (t : list event) : list string :=
  flat_map (fun e => match e with EvLog msg => [msg] | _ => [] end) t.

(** The first value stored under the key [name], as [Header.Get] returns it
    once the key is canonical. *)
Definition firstValue (h : gmap string (list string)) (name : string) : string :=
  match h !! name with
  | Some (v :: _) => v
  | _ => ""
  end.

(** More scenarios. *)
Module Setup.

(** A stand-in for [url.Parse] that knows one address, and a client factory
    whose clients never reach the authority. *)
Definition parse (address : string) : option URL :=
  if String.eqb address "http://auth.internal:9000"
  then Some Scenario.authority else None.

Definition clients (timeout : Z) (skipVerify : bool) : ForwardRequest -> DoOutcome :=
  fun _ => Scenario.refused.

(** The configuration [CreateConfig] returns, with its address filled in. *)
Definition withAddress (c : Config) (address : string) : Config :=
  mkConfig address (InsecureSkipVerify c) (ForwardHeaders c) (RequestHeaders c)
           (RequestWithBody c) (RequestTimeout c) (ResponseHeaders c)
           (FailurePolicy c) (FailureStatusCode c).

Definition addressed : Config := withAddress CreateConfig "http://auth.internal:9000".

(** An allowlist given in lower case, a static forward header, mirroring. *)
Definition selective : ForwardFilter :=
  Scenario.filterWith
    (mkConfig "http://auth.internal:9000" false [("Env", "prod")] ["accept"]
              true 0 ["X-Auth-User"] FailureAbort defaultFailureStatusCode)
    Scenario.refused.

(** The authority answers 404, which is not on the failure list. *)
Definition notFound : Response :=
  mkResponse 404 "404 Not Found" {[ "X-Auth-User" := ["bob"] ]} "nope" 4.

(** A failed dispatch that still produced a response. *)
Definition partial : DoOutcome :=
  mkDoOutcome (DoErr "unexpected EOF" (Some notFound)) 0.

(** The client gives up after having read the seven bytes of the body. *)
Definition drained : DoOutcome := mkDoOutcome (DoErr "context deadline exceeded" None) 7.

Definition mirroring : ForwardFilter :=
  Scenario.filterWith (Scenario.baseConfig FailureIgnore true) drained.

Definition typed : Request :=
  mkRequest "PUT" "/upload" "shop.example" "10.0.0.7:4000" true
            {[ "Content-Type" := ["application/json"];
               "Accept" := ["text/html"; "application/json"];
               "Connection" := ["close, X-Trace "];
               "X-Trace" := ["abc"] ]}
            "{}".

End Setup.

(** * Properties *)

(** ** The standard-library models on sample inputs *)

Example canon_te : CanonicalMIMEHeaderKey "TE" = "Te".
Proof. reflexivity. Qed.

Example canon_keep_alive : CanonicalMIMEHeaderKey "keep-ALIVE" = "Keep-Alive".
Proof. reflexivity. Qed.

Example canon_space : CanonicalMIMEHeaderKey "keep alive" = "keep alive".
Proof. reflexivity. Qed.

Example split_host_port_v4 : SplitHostPort "2.2.2.2:1234" = Some ("2.2.2.2", "1234").
Proof. reflexivity. Qed.

Example split_host_port_v6 : SplitHostPort "[::1]:80" = Some ("::1", "80").
Proof. reflexivity. Qed.

Example split_host_port_noport : SplitHostPort "2.2.2.2" = None.
Proof. reflexivity. Qed.

Example split_tokens :
  map TrimString (Split "close, Keep-Alive ,,x" ",") = ["close"; "Keep-Alive"; ""; "x"].
Proof. reflexivity. Qed.

(** ** The shadow-request builder *)

Section Builder.

Implicit Types (req r : Request) (q : ForwardRequest).
Implicit Types (m : gmap string (list string)).

Lemma copyAll_alloc req :
  copyAll req (Some ∅)
  = Ok (Some ((fun vv : list string => (vv ++ vv)%list) <$> Header req)).
Proof.
  unfold copyAll. set (H := Header req).
  cut (H ⊆ H → map_fold
         (fun k vv acc => let! h := acc in assign h k (default [] (H !! k) ++ vv))
         (Ok (Some ∅)) H
       = Ok (Some ((fun vv : list string => (vv ++ vv)%list) <$> H))); [auto|].
  generalize H at 1 4 5. intros m.
  apply (map_fold_weak_ind (fun res m => m ⊆ H → res = Ok (Some (_ <$> m)))).
  - intros _. by rewrite fmap_empty.
  - intros i x m' res Hi IH Hsub.
    rewrite IH by (etrans; [by apply insert_subseteq|done]).
    simpl. rewrite (lookup_weaken _ _ _ _ (lookup_insert_eq m' i x) Hsub).
    simpl. by rewrite fmap_insert.
Qed.

(** On a nil map the loop panics at its first iteration. *)
Lemma copyAll_nil req :
  copyAll req None = if decide (Header req = ∅) then Ok None else Panic nilMapPanic.
Proof.
  unfold copyAll.
  refine (map_fold_weak_ind
            (fun res m => res = if decide (m = ∅) then Ok None else Panic nilMapPanic)
            _ _ _ _ (Header req)).
  - by rewrite decide_True.
  - intros i x m res _ ->.
    rewrite (decide_False (P := <[i:=x]> m = ∅)) by apply insert_non_empty.
    by destruct (decide (m = ∅)).
Qed.

Lemma foldl_NDel_Some m l : foldl NDel (Some m) l = Some (foldl Del m l).
Proof. revert m; induction l as [|k l IH]; intros m; [done|apply IH]. Qed.

Lemma foldl_NDel_None l : foldl NDel None l = None.
Proof. induction l; [done|by simpl]. Qed.

Lemma writeForwarded_alloc req q m u0 :
  fwd_URL q = Some u0 →
  writeForwarded req q (Some m)
  = Ok (setFwdHeader q (Some (forwardedHeaders req u0 m))).
Proof.
  intros Hu. unfold writeForwarded, forwardedHeaders.
  rewrite foldl_NDel_Some, Hu. simpl.
  destruct (SplitHostPort (RemoteAddr req)) as [[clientIP port]|]; simpl;
    destruct (negb (String.eqb (Get (Header req) XForwardedProto) "")); simpl;
    try done; by destruct (TLS req).
Qed.

(** With a nil header map the first [Set] after the hop-by-hop loop panics. *)
Lemma writeForwarded_nil req q u0 :
  fwd_URL q = Some u0 → writeForwarded req q None = Panic nilMapPanic.
Proof.
  intros Hu. unfold writeForwarded. by rewrite foldl_NDel_None, Hu.
Qed.

Lemma writeHeader_alloc req q allowed u0 :
  fwd_URL q = Some u0 →
  writeHeader req q allowed
  = Ok (setFwdHeader q (Some (forwardedHeaders req u0 (copiedHeaders req allowed)))).
Proof.
  intros Hu. unfold writeHeader, copiedHeaders.
  destruct (length allowed =? 0)%nat.
  - rewrite copyAll_alloc. simpl. by apply writeForwarded_alloc.
  - simpl. by apply writeForwarded_alloc.
Qed.

Lemma staticHeaders_run f m :
  foldl (fun acc kv => let! h := acc in NSet h ("X-Forwarded-" +:+ kv.1) kv.2)
        (Ok (Some m)) (ForwardHeaders (config f))
  = Ok (Some (staticHeaders f m)).
Proof.
  unfold staticHeaders. revert m.
  induction (ForwardHeaders (config f)) as [|kv l IH]; intros m; [done|].
  simpl. apply IH.
Qed.

(** The builder never panics: it returns [shadowRequest]. *)
Lemma buildForwardReq_ok f q r :
  buildForwardReq f q r = Ok (shadowRequest f q r).
Proof.
  unfold buildForwardReq. fold (targetURL f r).
  rewrite (writeHeader_alloc _ _ _ (targetURL f r)) by done.
  simpl. rewrite staticHeaders_run. simpl.
  unfold shadowRequest, shadowHeaders.
  destruct (RequestWithBody (config f)); [|done].
  simpl. by destruct (negb _).
Qed.

(** The run of [ServeHTTP]: one dispatch, the handling of its outcome, the
    deferred close of the mirrored body and the return to the pool. *)
Lemma ServeHTTP_run f pool r :
  let q := shadowRequest f (requestPool_Get pool).1 r in
  ServeHTTP f pool r
  = Ok (EvDo q :: handled f r (client f q)
          ++ (if RequestWithBody (config f) then [EvCloseRequestBody] else [])
          ++ [EvPut (resetRequest q)],
        resetRequest q :: (requestPool_Get pool).2).
Proof.
  unfold ServeHTTP. destruct (requestPool_Get pool) as [q0 pool'].
  rewrite buildForwardReq_ok. reflexivity.
Qed.

(** [dispatch] is the client's answer to the request the builder returns. *)
Lemma dispatch_built f pool r q :
  buildForwardReq f (requestPool_Get pool).1 r = Ok q →
  dispatch f pool r = client f q.
Proof.
  rewrite buildForwardReq_ok. intros [= <-]. reflexivity.
Qed.

End Builder.

(** ** Construction *)

Section Installed.

Variable url_Parse : string → option URL.
Variable http_Client : Z → bool → ForwardRequest → DoOutcome.

(** [New] installs the filter behind the sanitizer, with a known failure
    policy ([ignore] when none is configured), canonical allowlists and a
    non-empty list of failure statuses. *)
Lemma New_installs cfg handler :
  New url_Parse http_Client cfg = Some handler →
  ∃ f,
    handler = Remover (ServeHTTP f)
    ∧ (FailurePolicy (config f) = FailureIgnore
       ∨ FailurePolicy (config f) = FailureAbort)
    ∧ (FailurePolicy cfg = "" → FailurePolicy (config f) = FailureIgnore)
    ∧ ResponseHeaders (config f) = canonicalHeaders (ResponseHeaders cfg)
    ∧ RequestHeaders (config f) = canonicalHeaders (RequestHeaders cfg)
    ∧ (FailureStatusCode cfg = [] → FailureStatusCode (config f) = [500; 502; 503; 504])
    ∧ FailureStatusCode (config f) ≠ [].
Proof.
  unfold New. destruct (url_Parse (Address cfg)) as [u0|]; [|done].
  destruct (String.eqb (FailurePolicy cfg) "") eqn:E0.
  - intros [= <-]. eexists. split; [reflexivity|]. simpl.
    repeat split; auto; try (by intros ->); by destruct (FailureStatusCode cfg).
  - destruct (String.eqb (FailurePolicy cfg) FailureIgnore
              || String.eqb (FailurePolicy cfg) FailureAbort) eqn:E1; [|done].
    intros [= <-]. eexists. split; [reflexivity|]. simpl.
    apply orb_true_iff in E1. rewrite !String.eqb_eq in E1.
    apply String.eqb_neq in E0.
    repeat split; auto; try tauto; try (by intros ->);
      by destruct (FailureStatusCode cfg).
Qed.

(** An unknown failure policy is refused. *)
Lemma New_illegal_policy cfg :
  FailurePolicy cfg ≠ "" → FailurePolicy cfg ≠ FailureIgnore →
  FailurePolicy cfg ≠ FailureAbort →
  New url_Parse http_Client cfg = None.
Proof.
  intros H0 H1 H2. unfold New.
  destruct (url_Parse (Address cfg)); [|done].
  apply String.eqb_neq in H0, H1, H2. by rewrite H0, H1, H2.
Qed.

End Installed.

(** ** The decision engine *)

Section Decision.

Implicit Types (f : ForwardFilter) (r : Request) (t : list event).

Lemma relayHeaders_filter f response (p : event → bool) :
  (∀ k v, p (EvSetHeader k v) = false) →
  List.filter p (relayHeaders f response) = [].
Proof.
  intros Hp. unfold relayHeaders.
  induction (ResponseHeaders (config f)) as [|header l IH]; [done|].
  simpl. rewrite List.filter_app, IH, app_nil_r.
  destruct (negb _); simpl; [by rewrite Hp|done].
Qed.

Lemma relayHeaders_writer f response :
  writerEvents (relayHeaders f response) = relayHeaders f response.
Proof.
  unfold writerEvents, relayHeaders.
  induction (ResponseHeaders (config f)) as [|header l IH]; [done|].
  simpl. rewrite List.filter_app, IH. by destruct (negb _).
Qed.

Lemma respond_next f response : nextCalls (respond f response) = 0%nat.
Proof.
  unfold nextCalls, respond.
  rewrite !List.filter_app, relayHeaders_filter by done.
  by destruct (0 <? ContentLength response).
Qed.

Lemma respond_writes f response : directWrites (respond f response) = 1%nat.
Proof.
  unfold directWrites, respond.
  rewrite !List.filter_app, relayHeaders_filter by done.
  by destruct (0 <? ContentLength response).
Qed.

Lemma respond_writer f response :
  writerEvents (respond f response)
  = (relayHeaders f response ++ [EvWriteHeader (StatusCode response)]
     ++ (if 0 <? ContentLength response then [EvCopy (resp_Body response)] else []))%list.
Proof.
  unfold respond, writerEvents.
  rewrite !List.filter_app. fold (writerEvents (relayHeaders f response)).
  rewrite relayHeaders_writer. by destruct (0 <? ContentLength response).
Qed.

Lemma respond_closes f response :
  responseBodyCloses (respond f response)
  = if 0 <? ContentLength response then 1%nat else 0%nat.
Proof.
  unfold responseBodyCloses, respond.
  rewrite !List.filter_app, relayHeaders_filter by done.
  by destruct (0 <? ContentLength response).
Qed.

(** The events around [handled] touch neither the handler nor the writer. *)
Lemma around_filter (p : event → bool) q t (b : bool) q' :
  (∀ x, p (EvDo x) = false) → p EvCloseRequestBody = false →
  (∀ x, p (EvPut x) = false) →
  List.filter p (EvDo q :: t ++ (if b then [EvCloseRequestBody] else [])
                              ++ [EvPut q'])%list
  = List.filter p t.
Proof.
  intros H1 H2 H3. simpl. rewrite H1, !List.filter_app. simpl. rewrite H3.
  destruct b; simpl; [rewrite H2|]; by rewrite app_nil_r.
Qed.

(** Every outcome of a dispatch is handled by one call of the downstream
    handler and no call on the writer, or by no call of the handler and
    one status line. *)
Lemma handled_terminal f r out :
  (nextCalls (handled f r out) = 1 ∧ writerEvents (handled f r out) = []
   ∨ nextCalls (handled f r out) = 0 ∧ directWrites (handled f r out) = 1)%nat.
Proof.
  unfold handled. destruct (do_result out) as [response|err [response|]].
  - destruct (_ && _ && _); [by left|].
    destruct (existsb _ _); simpl.
    + destruct (String.eqb _ _); [by left|right].
      split; [apply respond_next|apply respond_writes].
    + right. split; [apply respond_next|apply respond_writes].
  - simpl. destruct (String.eqb _ _); [by left|right].
    split; [apply respond_next|apply respond_writes].
  - simpl. destruct (String.eqb _ _); [by left|by right].
Qed.

End Decision.

(** C2. For every inbound request [ServeHTTP] returns, and its run holds
    exactly one terminal action: either the downstream handler is called
    once and nothing is done on the response writer, or the handler is not
    called and the status line is written once.  The same holds behind the
    sanitizer, as [New] installs the filter. *)
Theorem exactly_one_terminal_action (f : ForwardFilter) (pool : list ForwardRequest)
    (r : Request) :
  (∃ trace pool',
     ServeHTTP f pool r = Ok (trace, pool')
     ∧ (nextCalls trace = 1 ∧ directWrites trace = 0 ∧ writerEvents trace = []
        ∨ nextCalls trace = 0 ∧ directWrites trace = 1)%nat)
  ∧ (∃ trace pool',
       Remover (ServeHTTP f) pool r = Ok (trace, pool')
       ∧ (nextCalls trace = 1 ∧ directWrites trace = 0 ∧ writerEvents trace = []
          ∨ nextCalls trace = 0 ∧ directWrites trace = 1)%nat).
Proof.
  assert (Hsub : ∀ t, List.filter touchesWriter t = [] →
                      List.filter isWriteHeader t = []).
  { induction t as [|e t IH]; [done|]. simpl.
    destruct e; simpl; try done; auto. }
  assert (Hall : ∀ r0, ∃ trace pool',
             ServeHTTP f pool r0 = Ok (trace, pool')
             ∧ (nextCalls trace = 1 ∧ directWrites trace = 0 ∧ writerEvents trace = []
                ∨ nextCalls trace = 0 ∧ directWrites trace = 1)%nat).
  { intros r0. eexists _, _. split; [apply ServeHTTP_run|].
    unfold nextCalls, directWrites, writerEvents.
    rewrite !around_filter by done.
    destruct (handled_terminal f r0 (dispatch f pool r0)) as [[Hn Hw]|[Hn Hw]].
    - left. split; [exact Hn|]. split; [|exact Hw].
      unfold writerEvents in Hw. by rewrite Hsub.
    - right. by split. }
  split; [apply Hall|]. unfold Remover. apply Hall.
Qed.

(** ** The hop-by-hop sanitizer *)

Section Sanitizer.

Implicit Types (h : gmap string (list string)) (name : string).

Lemma canonical_connection : CanonicalMIMEHeaderKey connectionHeader = connectionHeader.
Proof. reflexivity. Qed.

Lemma foldl_delete_lookup (ks : list string) h name :
  foldl (fun h k => delete k h) h ks !! name
  = if decide (name ∈ ks) then None else h !! name.
Proof.
  revert h. induction ks as [|k ks IH]; intros h.
  - case_decide as Hin; [by apply elem_of_nil in Hin|done].
  - cbn [foldl]. rewrite IH. rewrite lookup_delete.
    destruct (decide (name ∈ ks)) as [Hin|Hin].
    + by rewrite decide_True by (by right).
    + destruct (decide (k = name)) as [->|Hne].
      * by rewrite decide_True by (by left).
      * rewrite decide_False; [done|].
        rewrite elem_of_cons. intros [->|?]; by auto.
Qed.

(** The nested loops of [removeConnectionHeaders] delete the nominated keys
    one after the other. *)
Lemma removeConnectionHeaders_tokens h :
  removeConnectionHeaders h = foldl (fun h k => delete k h) h (connectionTokens h).
Proof.
  unfold removeConnectionHeaders, connectionTokens.
  generalize (default [] (h !! connectionHeader)). intros fs.
  generalize h. clear h.
  induction fs as [|f0 fs IH]; intros h0; [done|].
  simpl. rewrite foldl_app, <- IH. f_equal.
  generalize (Split f0 ","). intros sfs. clear. revert h0.
  induction sfs as [|sf sfs IH]; intros h0; [done|].
  simpl. rewrite foldl_app, IH.
  by destruct (String.eqb (TrimString sf) "").
Qed.

Lemma sanitize_lookup h name :
  sanitize h !! name
  = if decide (name = connectionHeader ∨ name ∈ connectionTokens h) then None
    else h !! name.
Proof.
  unfold sanitize, Del. rewrite canonical_connection.
  destruct (decide (name = connectionHeader)) as [->|Hne].
  - rewrite lookup_delete_eq. by rewrite decide_True by (by left).
  - rewrite lookup_delete_ne by done.
    rewrite removeConnectionHeaders_tokens, foldl_delete_lookup.
    destruct (decide (name ∈ connectionTokens h)).
    + by rewrite decide_True by (by right).
    + by rewrite decide_False by tauto.
Qed.

Lemma sanitize_no_connection h : sanitize h !! connectionHeader = None.
Proof. rewrite sanitize_lookup. by rewrite decide_True by (by left). Qed.

(** Without a [Connection] header the sanitizer changes nothing. *)
Lemma sanitize_fixed h : h !! connectionHeader = None → sanitize h = h.
Proof.
  intros Hc. unfold sanitize, removeConnectionHeaders, Del.
  rewrite Hc, canonical_connection. simpl. by apply delete_id.
Qed.

End Sanitizer.

(** C8. The sanitizer is idempotent: removing the headers a [Connection]
    header nominates and then [Connection] itself, twice, leaves the same
    header collection as doing it once. *)
Theorem sanitize_idempotent (h : gmap string (list string)) :
  sanitize (sanitize h) = sanitize h.
Proof. apply sanitize_fixed, sanitize_no_connection. Qed.

(** ** What the caller and the downstream handler observe *)

Section Observed.

Implicit Types (f : ForwardFilter) (r : Request) (t : list event).
Implicit Types (rw : ResponseWriter).

Lemma around_flat_map {A} (g : event → list A) q t (b : bool) q' :
  g EvCloseRequestBody = [] → g (EvPut q') = [] →
  flat_map g (EvDo q :: t ++ (if b then [EvCloseRequestBody] else [])
                             ++ [EvPut q'])%list
  = (g (EvDo q) ++ flat_map g t)%list.
Proof.
  intros H1 H2. simpl. rewrite !flat_map_app. simpl. rewrite H2.
  destruct b; simpl; [rewrite H1|]; by rewrite !app_nil_r.
Qed.

(** The observations on a run of [ServeHTTP] are those on the handling of
    the dispatch outcome. *)
Lemma ServeHTTP_observed f pool r :
  ∃ trace pool',
    ServeHTTP f pool r = Ok (trace, pool')
    ∧ dispatchedRequests trace = [shadowRequest f (requestPool_Get pool).1 r]
    ∧ nextRequests trace = nextRequests (handled f r (dispatch f pool r))
    ∧ nextCalls trace = nextCalls (handled f r (dispatch f pool r))
    ∧ writerEvents trace = writerEvents (handled f r (dispatch f pool r))
    ∧ responseBodyCloses trace = responseBodyCloses (handled f r (dispatch f pool r))
    ∧ ∀ rw, rwRun rw trace = rwRun rw (handled f r (dispatch f pool r)).
Proof.
  eexists _, _. split; [apply ServeHTTP_run|].
  unfold dispatchedRequests, nextRequests, nextCalls, writerEvents, responseBodyCloses.
  rewrite !around_filter, !around_flat_map by done.
  assert (Hno : ∀ out, flat_map (fun e => match e with EvDo q => [q] | _ => [] end)
                                (handled f r out) = []).
  { intros out. unfold handled.
    assert (Hresp : ∀ response,
               flat_map (fun e => match e with EvDo q => [q] | _ => [] end)
                        (respond f response) = []).
    { intros response. unfold respond, relayHeaders. rewrite !flat_map_app.
      replace (flat_map _ (flat_map _ _)) with (@nil ForwardRequest).
      - by destruct (0 <? ContentLength response).
      - induction (ResponseHeaders (config f)) as [|hd l IH]; [done|].
        simpl. rewrite flat_map_app, <- IH. by destruct (negb _). }
    destruct (do_result out) as [response|err [response|]]; simpl.
    - destruct (_ && _ && _); [done|].
      destruct (existsb _ _); simpl; [|apply Hresp].
      destruct (String.eqb _ _); [done|apply Hresp].
    - destruct (String.eqb _ _); [done|apply Hresp].
    - by destruct (String.eqb _ _). }
  rewrite Hno. repeat split; try done.
  intros rw. unfold rwRun. simpl. rewrite !foldl_app.
  by destruct (RequestWithBody (config f)).
Qed.

Lemma existsb_status (code : Z) (codes : list Z) :
  existsb (Z.eqb code) codes = true ↔ In code codes.
Proof.
  rewrite existsb_exists. split.
  - intros (x & Hin & Heq). apply Z.eqb_eq in Heq. by subst.
  - intros Hin. exists code. split; [done|apply Z.eqb_refl].
Qed.

Lemma pass_test (response : Response) :
  (200 <=? StatusCode response) && (StatusCode response <? 300)
    && (ContentLength response =? 0) = true
  ↔ (200 ≤ StatusCode response < 300 ∧ ContentLength response = 0).
Proof.
  rewrite !andb_true_iff, Z.leb_le, Z.ltb_lt, Z.eqb_eq. tauto.
Qed.

(** The relay as the caller receives it on a writer whose status line is
    not yet written. *)
Lemma rwRun_relayHeaders f response rw :
  rwRun rw (relayHeaders f response)
  = mkResponseWriter (allowlisted f response (rw_Header rw)) (rw_status rw)
                     (rw_sent rw) (rw_body rw).
Proof.
  unfold rwRun, relayHeaders, allowlisted. revert rw.
  induction (ResponseHeaders (config f)) as [|hd l IH]; intros rw; [by destruct rw|].
  simpl. rewrite foldl_app, IH. by destruct (negb _).
Qed.

Lemma rwRun_respond f response rw :
  rw_status rw = None →
  rwRun rw (respond f response)
  = mkResponseWriter (allowlisted f response (rw_Header rw))
                     (Some (StatusCode response))
                     (allowlisted f response (rw_Header rw))
                     (if 0 <? ContentLength response
                      then rw_body rw +:+ resp_Body response else rw_body rw).
Proof.
  intros Hs. unfold respond.
  change (rwRun rw (?a ++ ?b)%list) with (foldl rwStep rw (a ++ b)%list).
  rewrite foldl_app. fold (rwRun rw (relayHeaders f response)).
  rewrite rwRun_relayHeaders. simpl. unfold rwWriteHeader. simpl. rewrite Hs.
  by destruct (0 <? ContentLength response).
Qed.

End Observed.

Import Scenario.

Section FailureStatus.

Implicit Types (f : ForwardFilter) (r : Request).

(** A designated failure status is turned into an error before the
    deferred function runs. *)
Lemma handled_failure_status f r out response :
  do_result out = DoOk response →
  In (StatusCode response) (FailureStatusCode (config f)) →
  ¬ (200 ≤ StatusCode response < 300 ∧ ContentLength response = 0) →
  handled f r out
  = deferredRespond f false (DoErr (Status response) (Some response))
                    (afterDispatch f r out).
Proof.
  intros Hres Hin Hnp. unfold handled. rewrite Hres.
  destruct (_ && _ && _) eqn:E; [by apply pass_test in E|].
  by rewrite (proj2 (existsb_status _ _) Hin).
Qed.

Lemma handled_plain_status f r out response :
  do_result out = DoOk response →
  ¬ In (StatusCode response) (FailureStatusCode (config f)) →
  ¬ (200 ≤ StatusCode response < 300 ∧ ContentLength response = 0) →
  handled f r out = respond f response.
Proof.
  intros Hres Hin Hnp. unfold handled. rewrite Hres.
  destruct (_ && _ && _) eqn:E; [by apply pass_test in E|].
  destruct (existsb _ _) eqn:E'; [by apply existsb_status in E'|done].
Qed.

Lemma policy_test f :
  String.eqb (FailurePolicy (config f)) FailureIgnore = true
  ↔ FailurePolicy (config f) = FailureIgnore.
Proof. apply String.eqb_eq. Qed.

End FailureStatus.

(** C1, as amended.  When the dispatch succeeds with a status listed in
    [FailureStatusCode] (and the response is not a 2xx of zero length, which
    passes): under a failure policy other than [ignore] the handler is not
    called and the caller receives that status, the allowlisted headers and,
    when the content length is positive, the body; under [ignore] the
    downstream handler is called instead and nothing is written. *)
Theorem failure_status_follows_policy (f : ForwardFilter) (pool : list ForwardRequest)
    (r : Request) (response : Response) :
  do_result (dispatch f pool r) = DoOk response →
  In (StatusCode response) (FailureStatusCode (config f)) →
  ¬ (200 ≤ StatusCode response < 300 ∧ ContentLength response = 0) →
  ∃ trace pool',
    ServeHTTP f pool r = Ok (trace, pool')
    ∧ (FailurePolicy (config f) ≠ FailureIgnore →
       nextCalls trace = 0%nat
       ∧ ∀ rw, rw_status rw = None →
           rwRun rw trace
           = mkResponseWriter (allowlisted f response (rw_Header rw))
               (Some (StatusCode response))
               (allowlisted f response (rw_Header rw))
               (if 0 <? ContentLength response
                then rw_body rw +:+ resp_Body response else rw_body rw))
    ∧ (FailurePolicy (config f) = FailureIgnore →
       nextRequests trace = [afterDispatch f r (dispatch f pool r)]
       ∧ writerEvents trace = []).
Proof.
  intros Hres Hin Hnp.
  destruct (ServeHTTP_observed f pool r)
    as (trace & pool' & Hrun & _ & Hreq & Hnext & Hw & _ & Hrw).
  exists trace, pool'. split; [done|].
  rewrite Hreq, Hnext, Hw.
  rewrite (handled_failure_status f r _ response Hres Hin Hnp). simpl.
  split; intros Hpol.
  - destruct (String.eqb _ _) eqn:E; [by apply policy_test in E|].
    split; [apply respond_next|].
    intros rw Hs. rewrite Hrw.
    rewrite (handled_failure_status f r _ response Hres Hin Hnp). simpl. rewrite E.
    change (rwRun rw (EvLog ?m :: ?t)) with (rwRun rw t).
    by apply rwRun_respond.
  - by rewrite (proj2 (policy_test f) Hpol).
Qed.

Lemma failure_status_follows_policy_witness :
  ∃ trace pool',
    ServeHTTP (answering FailureAbort unavailable) [] inbound = Ok (trace, pool')
    ∧ nextCalls trace = 0%nat
    ∧ rw_status (rwRun freshWriter trace) = Some 503
    ∧ rw_body (rwRun freshWriter trace) = "down"
    ∧ rw_sent (rwRun freshWriter trace) !! "X-Auth-User" = Some ["bob"].
Proof.
  destruct (failure_status_follows_policy
              (answering FailureAbort unavailable) [] inbound unavailable) as (trace & pool' & Hrun & Habort & _).
  - reflexivity.
  - simpl. tauto.
  - simpl. lia.
  - exists trace, pool'. split; [exact Hrun|].
    destruct Habort as [Hn Hrw]; [discriminate|].
    split; [exact Hn|]. rewrite (Hrw freshWriter eq_refl). repeat split.
Defined.

(** C1 as stated fails under the default policy: a 503 that is on the
    failure list reaches the downstream handler, and the caller receives
    nothing from the filter. *)
Lemma failure_status_under_ignore_reaches_handler :
  do_result (dispatch (answering FailureIgnore unavailable) [] inbound) = DoOk unavailable
  ∧ In (StatusCode unavailable)
       (FailureStatusCode (config (answering FailureIgnore unavailable)))
  ∧ ∃ trace pool',
      ServeHTTP (answering FailureIgnore unavailable) [] inbound = Ok (trace, pool')
      ∧ nextRequests trace = [inbound]
      ∧ writerEvents trace = []
      ∧ rwRun freshWriter trace = freshWriter.
Proof.
  split; [reflexivity|]. split; [simpl; tauto|].
  eexists _, _. split; [vm_compute; reflexivity|]. by vm_compute.
Qed.

(** C4, as amended.  When the dispatch succeeds with a 2xx status and a
    positive content length, and the status is not a designated failure
    status handled under [ignore], the handler is not called and the caller
    receives the authority's status and exactly its body. *)
Theorem success_with_body_is_relayed (f : ForwardFilter) (pool : list ForwardRequest)
    (r : Request) (response : Response) :
  do_result (dispatch f pool r) = DoOk response →
  200 ≤ StatusCode response < 300 →
  0 < ContentLength response →
  (¬ In (StatusCode response) (FailureStatusCode (config f))
   ∨ FailurePolicy (config f) ≠ FailureIgnore) →
  ∃ trace pool',
    ServeHTTP f pool r = Ok (trace, pool')
    ∧ nextCalls trace = 0%nat
    ∧ writerEvents trace
      = (relayHeaders f response
         ++ [EvWriteHeader (StatusCode response); EvCopy (resp_Body response)])%list
    ∧ ∀ rw, rw_status rw = None →
        rw_status (rwRun rw trace) = Some (StatusCode response)
        ∧ rw_body (rwRun rw trace) = rw_body rw +:+ resp_Body response.
Proof.
  intros Hres H2xx Hlen Hpol.
  assert (Hnp : ¬ (200 ≤ StatusCode response < 300 ∧ ContentLength response = 0)) by lia.
  assert (Hpos : (0 <? ContentLength response) = true) by by apply Z.ltb_lt.
  destruct (ServeHTTP_observed f pool r)
    as (trace & pool' & Hrun & _ & _ & Hnext & Hw & _ & Hrw).
  exists trace, pool'. split; [done|]. rewrite Hnext, Hw.
  assert (Hh : handled f r (dispatch f pool r) = respond f response
               ∨ handled f r (dispatch f pool r) = EvLog (Status response) :: respond f response).
  { destruct (in_dec Z.eq_dec (StatusCode response) (FailureStatusCode (config f)))
      as [Hin|Hin].
    - right. rewrite (handled_failure_status f r _ response Hres Hin Hnp). simpl.
      destruct Hpol as [?|Hpol]; [done|].
      destruct (String.eqb _ _) eqn:E; [by apply policy_test in E|done].
    - left. by apply handled_plain_status. }
  assert (Hobs : nextCalls (handled f r (dispatch f pool r)) = 0%nat
                 ∧ writerEvents (handled f r (dispatch f pool r))
                   = writerEvents (respond f response)
                 ∧ ∀ rw, rwRun rw (handled f r (dispatch f pool r))
                         = rwRun rw (respond f response)).
  { destruct Hh as [->| ->]; (split; [apply respond_next|done]). }
  destruct Hobs as (-> & -> & Hrw').
  split; [done|]. split.
  - by rewrite respond_writer, Hpos.
  - intros rw Hs. rewrite Hrw, Hrw', rwRun_respond by done. simpl.
    by rewrite Hpos.
Qed.

Lemma success_with_body_is_relayed_witness :
  ∃ trace pool',
    ServeHTTP (answering FailureIgnore substitute) [] inbound = Ok (trace, pool')
    ∧ nextCalls trace = 0%nat
    ∧ rw_status (rwRun freshWriter trace) = Some 200
    ∧ rw_body (rwRun freshWriter trace) = "hello".
Proof.
  destruct (success_with_body_is_relayed
              (answering FailureIgnore substitute) [] inbound substitute) as (trace & pool' & Hrun & Hn & _ & Hrw).
  - reflexivity.
  - simpl. lia.
  - simpl. lia.
  - left. simpl. intros H. decompose [or] H; discriminate || done.
  - exists trace, pool'. split; [exact Hrun|]. split; [exact Hn|].
    exact (Hrw freshWriter eq_refl).
Defined.

(** C4 as stated fails in two places.  A 200 whose length is unknown
    ([ContentLength] -1) has a non-empty body that is not relayed: the caller
    receives the status line alone.  And a 200 that the configuration lists
    as a failure status goes, under [ignore], to the downstream handler. *)
Lemma success_body_not_always_relayed :
  (do_result (dispatch (answering FailureIgnore chunked) [] inbound) = DoOk chunked
   ∧ ContentLength chunked ≠ 0 ∧ resp_Body chunked = "hello"
   ∧ ∃ trace pool',
       ServeHTTP (answering FailureIgnore chunked) [] inbound = Ok (trace, pool')
       ∧ writerEvents trace = [EvWriteHeader 200]
       ∧ rw_body (rwRun freshWriter trace) = "")
  ∧ (do_result (dispatch (filterWith okIsFailure (mkDoOutcome (DoOk substitute) 0))
                         [] inbound) = DoOk substitute
     ∧ ContentLength substitute ≠ 0
     ∧ ∃ trace pool',
         ServeHTTP (filterWith okIsFailure (mkDoOutcome (DoOk substitute) 0))
                   [] inbound = Ok (trace, pool')
         ∧ nextRequests trace = [inbound]
         ∧ writerEvents trace = []).
Proof.
  split.
  - split; [reflexivity|]. split; [done|]. split; [reflexivity|].
    eexists _, _. split; [vm_compute; reflexivity|]. by vm_compute.
  - split; [reflexivity|]. split; [done|].
    eexists _, _. split; [vm_compute; reflexivity|]. by vm_compute.
Qed.

Section TransportFailure.

Implicit Types (f : ForwardFilter) (r : Request).

(** Under [ignore] a failed dispatch hands the request the filter holds to
    the downstream handler, without touching the writer. *)
Lemma transport_failure_ignored f pool r err response :
  do_result (dispatch f pool r) = DoErr err response →
  FailurePolicy (config f) = FailureIgnore →
  ∃ trace pool',
    ServeHTTP f pool r = Ok (trace, pool')
    ∧ nextRequests trace = [afterDispatch f r (dispatch f pool r)]
    ∧ writerEvents trace = [].
Proof.
  intros Hres Hpol.
  destruct (ServeHTTP_observed f pool r)
    as (trace & pool' & Hrun & _ & Hreq & _ & Hw & _).
  exists trace, pool'. split; [done|]. rewrite Hreq, Hw.
  unfold handled. rewrite Hres. simpl.
  by rewrite (proj2 (policy_test f) Hpol).
Qed.

(** Without body mirroring that request is the inbound request itself. *)
Lemma afterDispatch_unmirrored f r out :
  RequestWithBody (config f) = false → afterDispatch f r out = r.
Proof. intros H. unfold afterDispatch. by rewrite H. Qed.

(** With mirroring every field but the body is the inbound request's, and
    the body is what the client read of it. *)
Lemma afterDispatch_mirrored f r out :
  RequestWithBody (config f) = true →
  afterDispatch f r out = setBody r (substring 0 (do_read out) (Body r)).
Proof. intros H. unfold afterDispatch. by rewrite H. Qed.

(** Under a policy other than [ignore], a failed dispatch that produced no
    response is answered with 502 and nothing else. *)
Lemma transport_failure_aborted f pool r err :
  do_result (dispatch f pool r) = DoErr err None →
  FailurePolicy (config f) ≠ FailureIgnore →
  ∃ trace pool',
    ServeHTTP f pool r = Ok (trace, pool')
    ∧ nextCalls trace = 0%nat
    ∧ writerEvents trace = [EvWriteHeader StatusBadGateway].
Proof.
  intros Hres Hpol.
  destruct (ServeHTTP_observed f pool r)
    as (trace & pool' & Hrun & _ & _ & Hn & Hw & _).
  exists trace, pool'. split; [done|]. rewrite Hn, Hw.
  unfold handled. rewrite Hres. simpl.
  destruct (String.eqb _ _) eqn:E; [by apply policy_test in E|done].
Qed.

End TransportFailure.

(** C5, at an input where the code departs from it.  The filter mirrors the
    body, the policy is [ignore], and the dispatch fails before the client
    has read anything (connection refused): the downstream handler is called
    with a request whose body is empty, not with the inbound request. *)
Theorem mirrored_body_lost_on_transport_failure :
  ∃ trace pool',
    ServeHTTP (unreachable true) [] inbound = Ok (trace, pool')
    ∧ nextRequests trace = [setBody inbound ""]
    ∧ Body inbound = "payload"
    ∧ writerEvents trace = [].
Proof.
  eexists _, _. split; [vm_compute; reflexivity|]. by vm_compute.
Qed.

Section ResponseBody.

Implicit Types (f : ForwardFilter) (r : Request).

(** The response body is closed at most once, and only on the relay of a
    response whose content length is positive. *)
Lemma response_body_close f r out :
  (responseBodyCloses (handled f r out) ≤ 1)%nat
  ∧ (∀ response, do_result out = DoOk response →
       ContentLength response ≤ 0 → responseBodyCloses (handled f r out) = 0%nat)
  ∧ (∀ response, do_result out = DoOk response →
       In (StatusCode response) (FailureStatusCode (config f)) →
       FailurePolicy (config f) = FailureIgnore →
       responseBodyCloses (handled f r out) = 0%nat).
Proof.
  assert (Hr : ∀ response, (responseBodyCloses (respond f response) ≤ 1)%nat
               ∧ (ContentLength response ≤ 0 →
                  responseBodyCloses (respond f response) = 0%nat)).
  { intros response. rewrite respond_closes.
    destruct (0 <? ContentLength response) eqn:E; [|by auto].
    apply Z.ltb_lt in E. split; [done|lia]. }
  unfold handled. split; [|split].
  - destruct (do_result out) as [response|err [response|]]; simpl.
    + destruct (_ && _ && _); [by auto|].
      destruct (existsb _ _); simpl; [|apply Hr].
      destruct (String.eqb _ _); [by auto|apply Hr].
    + destruct (String.eqb _ _); [by auto|apply Hr].
    + destruct (String.eqb _ _); by auto.
  - intros response -> Hlen.
    destruct (_ && _ && _); [done|].
    destruct (existsb _ _); simpl; [|by apply Hr].
    destruct (String.eqb _ _); [done|by apply Hr].
  - intros response -> Hin Hpol.
    destruct (_ && _ && _); [done|].
    rewrite (proj2 (existsb_status _ _) Hin). simpl.
    by rewrite (proj2 (policy_test f) Hpol).
Qed.

End ResponseBody.

(** C9, at an input where the code departs from it.  The authority answers
    503 with a body of four bytes and the policy is [ignore]: the response
    is discarded, the request goes to the downstream handler, and the run
    ends without a call of [response.Body.Close]. *)
Theorem discarded_response_body_left_open :
  ∃ trace pool',
    ServeHTTP (answering FailureIgnore unavailable) [] inbound = Ok (trace, pool')
    ∧ ContentLength unavailable = 4
    ∧ nextCalls trace = 1%nat
    ∧ responseBodyCloses trace = 0%nat.
Proof.
  eexists _, _. split; [vm_compute; reflexivity|]. by vm_compute.
Qed.

(** Nor is the body closed on the pass path (204, no content), or on the
    relay of a response whose length is not announced. *)
Lemma response_body_left_open_elsewhere :
  (∃ trace pool',
     ServeHTTP (answering FailureIgnore noContent) [] inbound = Ok (trace, pool')
     ∧ nextCalls trace = 1%nat ∧ responseBodyCloses trace = 0%nat)
  ∧ (∃ trace pool',
       ServeHTTP (answering FailureIgnore chunked) [] inbound = Ok (trace, pool')
       ∧ directWrites trace = 1%nat ∧ responseBodyCloses trace = 0%nat).
Proof.
  split; eexists _, _; (split; [vm_compute; reflexivity|]); by vm_compute.
Qed.

(** On the relay of a response with a positive content length it is closed
    once. *)
Lemma relayed_response_body_closed :
  ∃ trace pool',
    ServeHTTP (answering FailureIgnore substitute) [] inbound = Ok (trace, pool')
    ∧ responseBodyCloses trace = 1%nat.
Proof.
  eexists _, _. split; [vm_compute; reflexivity|]. by vm_compute.
Qed.

(** ** The header map of the shadow request *)

Section ShadowHeaders.

Implicit Types (f : ForwardFilter) (req r : Request) (name : string).
Implicit Types (m : gmap string (list string)).

Lemma hopHeaders_inv name :
  name ∈ hopHeaders →
  name = Connection ∨ name = KeepAlive ∨ name = Te ∨ name = Trailers
  ∨ name = TransferEncoding ∨ name = Upgrade.
Proof.
  unfold hopHeaders. rewrite !elem_of_cons, elem_of_nil. tauto.
Qed.

Lemma foldl_Del_hop m name :
  foldl Del m hopHeaders !! name
  = if decide (name ∈ hopHeaders) then None else m !! name.
Proof.
  change (foldl Del m hopHeaders)
    with (foldl (fun h k => delete k h) m hopHeaders).
  apply foldl_delete_lookup.
Qed.

Lemma canonical_forwarded_prefix (k : string) :
  String.prefix "X-Forwarded-" (CanonicalMIMEHeaderKey ("X-Forwarded-" +:+ k)) = true.
Proof.
  unfold CanonicalMIMEHeaderKey.
  destruct (allValid ("X-Forwarded-" +:+ k)); simpl;
    match goal with |- String.prefix "" ?s = true => by destruct s end.
Qed.

Lemma Get_nonempty m key :
  Get m key ≠ "" → ∃ v vs, m !! CanonicalMIMEHeaderKey key = Some (v :: vs).
Proof.
  unfold Get. destruct (m !! CanonicalMIMEHeaderKey key) as [[|v vs]|]; try done.
  by exists v, vs.
Qed.

Lemma eqb_empty_false (s : string) : negb (String.eqb s "") = true ↔ s ≠ "".
Proof.
  rewrite negb_true_iff. split.
  - intros H ->. by rewrite String.eqb_refl in H.
  - intros H. by apply String.eqb_neq.
Qed.

Lemma canonical_builder name :
  name ∈ builderHeaders → CanonicalMIMEHeaderKey name = name.
Proof.
  unfold builderHeaders. rewrite !elem_of_cons, elem_of_nil.
  intros H. decompose [or] H; by subst.
Qed.

Lemma forwardedHeaders_other req u0 m name :
  name ∉ builderHeaders →
  forwardedHeaders req u0 m !! name
  = if decide (name ∈ hopHeaders) then None else m !! name.
Proof.
  intros Hn. rewrite <- foldl_Del_hop. unfold forwardedHeaders, Set_.
  assert (Hset : ∀ m' key v,
             key ∈ builderHeaders →
             <[CanonicalMIMEHeaderKey key := v]> m' !! name = m' !! name).
  { intros m' key v Hk. apply lookup_insert_ne.
    rewrite canonical_builder by done. by intros ->. }
  destruct (negb _), (TLS req), (SplitHostPort (RemoteAddr req)) as [[ip port]|];
    by rewrite !Hset by (by repeat constructor).
Qed.

Lemma staticHeaders_other f m name :
  name ∉ staticNames f → staticHeaders f m !! name = m !! name.
Proof.
  unfold staticHeaders, staticNames. revert m.
  induction (ForwardHeaders (config f)) as [|kv l IH]; intros m Hn; [done|].
  simpl in *. apply not_elem_of_cons in Hn as [Hne Hn].
  rewrite IH by done. unfold Set_. by apply lookup_insert_ne.
Qed.

Lemma staticNames_prefix f name :
  name ∈ staticNames f → String.prefix "X-Forwarded-" name = true.
Proof.
  unfold staticNames. rewrite list_elem_of_fmap. intros (kv & -> & _).
  apply canonical_forwarded_prefix.
Qed.

(** Outside the names the builder writes itself, the shadow request holds
    what was copied from the inbound request, less the hop-by-hop names. *)
Lemma shadowHeaders_other f r name :
  name ∉ builderHeaders → name ∉ staticNames f →
  (RequestWithBody (config f) = true → Get (Header r) "Content-Type" ≠ "" →
   name ≠ "Content-Type") →
  shadowHeaders f r !! name
  = if decide (name ∈ hopHeaders) then None
    else copiedHeaders r (RequestHeaders (config f)) !! name.
Proof.
  intros Hb Hs Hct. unfold shadowHeaders.
  set (copied := copiedHeaders r (RequestHeaders (config f))).
  assert (Hbase : staticHeaders f (forwardedHeaders r (targetURL f r) copied) !! name
                  = if decide (name ∈ hopHeaders) then None else copied !! name).
  { rewrite staticHeaders_other by done. by apply forwardedHeaders_other. }
  rewrite <- Hbase.
  destruct (RequestWithBody (config f)); [|done].
  destruct (negb _) eqn:E; [|done].
  apply eqb_empty_false in E. unfold Set_. apply lookup_insert_ne.
  intros E'. by apply Hct.
Qed.

Lemma copyAllowed_absent req m allowed name :
  Header req !! name = None →
  copyAllowed req m allowed !! name = m !! name.
Proof.
  intros Hn. unfold copyAllowed. revert m.
  induction allowed as [|header l IH]; intros m; [done|].
  simpl. rewrite IH.
  destruct (String.eqb _ _) eqn:E; [done|].
  apply String.eqb_neq, Get_nonempty in E as (v & vs & Hv).
  unfold Set_. apply lookup_insert_ne. intros E. congruence.
Qed.

Lemma copiedHeaders_absent req allowed name :
  Header req !! name = None → copiedHeaders req allowed !! name = None.
Proof.
  intros Hn. unfold copiedHeaders. destruct (length allowed =? 0)%nat.
  - by rewrite lookup_fmap, Hn.
  - by rewrite copyAllowed_absent.
Qed.

(** A name absent from the inbound request is absent from the shadow
    request, unless the builder writes it itself. *)
Lemma shadowHeaders_absent f r name :
  Header r !! name = None →
  name ∉ builderHeaders → name ∉ staticNames f →
  shadowHeaders f r !! name = None.
Proof.
  intros Hn Hb Hs. rewrite shadowHeaders_other; try done.
  - destruct (decide _); [done|by apply copiedHeaders_absent].
  - intros _ Hct ->. apply Get_nonempty in Hct as (v & vs & Hv).
    change (CanonicalMIMEHeaderKey "Content-Type") with "Content-Type" in Hv.
    congruence.
Qed.

(** The hop-by-hop names are none of the names the builder writes. *)
Lemma hop_not_written f name :
  name ∈ hopHeaders →
  (name ∉ builderHeaders) ∧ (name ∉ staticNames f) ∧ name ≠ "Content-Type".
Proof.
  intros Hin. apply hopHeaders_inv in Hin.
  assert (Hp : String.prefix "X-Forwarded-" name = false)
    by (decompose [or] Hin; by subst).
  split; [|split].
  - unfold builderHeaders. rewrite !not_elem_of_cons.
    decompose [or] Hin; subst; repeat split; try discriminate; apply not_elem_of_nil.
  - intros Hs. apply staticNames_prefix in Hs. congruence.
  - decompose [or] Hin; by subst.
Qed.

Lemma shadowHeaders_hop f r name :
  name ∈ hopHeaders → shadowHeaders f r !! name = None.
Proof.
  intros Hin. destruct (hop_not_written f name Hin) as (Hb & Hs & Hct).
  rewrite shadowHeaders_other by done. by rewrite decide_True.
Qed.

Lemma allowlisted_other f response m name :
  name ∉ canonicalHeaders (ResponseHeaders (config f)) →
  allowlisted f response m !! name = m !! name.
Proof.
  unfold allowlisted, canonicalHeaders. revert m.
  induction (ResponseHeaders (config f)) as [|header l IH]; intros m Hn; [done|].
  simpl in *. apply not_elem_of_cons in Hn as [Hne Hn].
  rewrite IH by done.
  destruct (negb _); [|done]. unfold Set_. by apply lookup_insert_ne.
Qed.

(** The requests the downstream handler can be called with carry the
    inbound headers, with the allowlisted response headers merged in on
    the pass path. *)
Lemma handled_next_headers f r out r' :
  r' ∈ nextRequests (handled f r out) →
  Header r' = Header r
  ∨ ∃ response, Header r' = allowlisted f response (Header r).
Proof.
  assert (Hresp : ∀ response, nextRequests (respond f response) = []).
  { intros response. unfold respond, relayHeaders, nextRequests.
    rewrite !flat_map_app.
    replace (flat_map _ (flat_map _ _)) with (@nil Request).
    - by destruct (0 <? ContentLength response).
    - induction (ResponseHeaders (config f)) as [|hd l IH]; [done|].
      simpl. rewrite flat_map_app, <- IH. by destruct (negb _). }
  assert (Hh : Header (afterDispatch f r out) = Header r).
  { unfold afterDispatch. by destruct (RequestWithBody (config f)). }
  unfold handled.
  destruct (do_result out) as [response|err [response|]]; simpl.
  - destruct (_ && _ && _).
    + simpl. rewrite list_elem_of_singleton. intros ->. right. exists response.
      simpl. by rewrite Hh.
    + destruct (existsb _ _); simpl; [|by rewrite Hresp; intros ?%elem_of_nil].
      destruct (String.eqb _ _); [|by rewrite Hresp; intros ?%elem_of_nil].
      simpl. rewrite list_elem_of_singleton. intros ->. by left.
  - destruct (String.eqb _ _); [|by rewrite Hresp; intros ?%elem_of_nil].
    simpl. rewrite list_elem_of_singleton. intros ->. by left.
  - destruct (String.eqb _ _); [|by intros ?%elem_of_nil].
    simpl. rewrite list_elem_of_singleton. intros ->. by left.
Qed.

End ShadowHeaders.

Lemma shadowRequest_header (f : ForwardFilter) (q : ForwardRequest) (r : Request) :
  fwd_Header (shadowRequest f q r) = Some (shadowHeaders f r).
Proof. unfold shadowRequest. by destruct (RequestWithBody (config f)). Qed.

(** C3, as amended.  Behind the sanitizer, the shadow request holds none of
    the fixed hop-by-hop names, and no name that a [Connection] header
    nominates unless the builder writes that name itself ([Host], the five
    [X-Forwarded-...] names, the static forward headers).  The request the downstream handler is called with
    holds neither [Connection] nor a nominated name, unless the name is on
    the response allowlist and was merged in. *)
Theorem hop_by_hop_headers_removed (f : ForwardFilter) (pool : list ForwardRequest)
    (r : Request) :
  ∃ trace pool' q h,
    Remover (ServeHTTP f) pool r = Ok (trace, pool')
    ∧ dispatchedRequests trace = [q] ∧ fwd_Header q = Some h
    ∧ (∀ name, name ∈ hopHeaders → h !! name = None)
    ∧ (∀ name, name ∈ connectionTokens (Header r) →
         name ∉ builderHeaders → name ∉ staticNames f →
         h !! name = None)
    ∧ (∀ r' name, r' ∈ nextRequests trace →
         name = Connection ∨ name ∈ connectionTokens (Header r) →
         name ∉ canonicalHeaders (ResponseHeaders (config f)) →
         Header r' !! name = None).
Proof.
  unfold Remover. set (rs := setHeader r (sanitize (Header r))).
  destruct (ServeHTTP_observed f pool rs)
    as (trace & pool' & Hrun & Hq & Hreq & _).
  exists trace, pool', (shadowRequest f (requestPool_Get pool).1 rs), (shadowHeaders f rs).
  assert (Hs : ∀ name, name = Connection ∨ name ∈ connectionTokens (Header r) →
                       Header rs !! name = None).
  { intros name Hn. simpl. rewrite sanitize_lookup. by rewrite decide_True. }
  split; [done|]. split; [done|]. split; [apply shadowRequest_header|].
  split; [|split].
  - intros name Hin. by apply shadowHeaders_hop.
  - intros name Hin Hb Hst. apply shadowHeaders_absent; auto.
  - intros r' name Hin Hn Hal. rewrite Hreq in Hin.
    apply handled_next_headers in Hin as [-> | [response ->]].
    + by apply Hs.
    + rewrite allowlisted_other by done. by apply Hs.
Qed.

(** C3 as stated fails for the request the downstream handler sees: the
    sanitizer only removes what [Connection] nominates, so an inbound
    [Keep-Alive] header is still there on the pass path. *)
Lemma keep_alive_reaches_handler :
  ∃ trace pool' r',
    Remover (ServeHTTP (answering FailureIgnore noContent)) [] inbound
    = Ok (trace, pool')
    ∧ nextRequests trace = [r']
    ∧ In KeepAlive hopHeaders
    ∧ Header r' !! KeepAlive = Some ["timeout=5"].
Proof.
  eexists _, _, _. split; [vm_compute; reflexivity|].
  split; [vm_compute; reflexivity|]. split; [simpl; tauto|]. by vm_compute.
Qed.

(** C6, as amended.  With an empty request allowlist every inbound header
    whose name is neither hop-by-hop nor written by the builder itself
    ([Host], the five [X-Forwarded-...] names, the static forward headers,
    and [Content-Type] under body mirroring) is on the shadow request, its
    value list starting with the inbound values and holding no value besides
    them. *)
Theorem copy_all_keeps_inbound_headers (f : ForwardFilter) (pool : list ForwardRequest)
    (r : Request) (name : string) (vv : list string) :
  RequestHeaders (config f) = [] →
  Header r !! name = Some vv →
  name ∉ hopHeaders →
  name ∉ builderHeaders →
  name ∉ staticNames f →
  (RequestWithBody (config f) = true → name ≠ "Content-Type") →
  ∃ trace pool' q h rest,
    ServeHTTP f pool r = Ok (trace, pool')
    ∧ dispatchedRequests trace = [q] ∧ fwd_Header q = Some h
    ∧ h !! name = Some (vv ++ rest)%list
    ∧ ∀ v, v ∈ rest → v ∈ vv.
Proof.
  intros Hall Hin Hhop Hb Hst Hct.
  destruct (ServeHTTP_observed f pool r) as (trace & pool' & Hrun & Hq & _).
  exists trace, pool', (shadowRequest f (requestPool_Get pool).1 r), (shadowHeaders f r), vv.
  split; [done|]. split; [done|]. split; [apply shadowRequest_header|].
  split; [|done].
  rewrite shadowHeaders_other by auto.
  rewrite decide_False by done.
  unfold copiedHeaders. rewrite Hall. simpl. by rewrite lookup_fmap, Hin.
Qed.

(** What the copy loop stores is the inbound value list twice over. *)
Lemma copy_all_stores_values_twice (f : ForwardFilter) (r : Request) (name : string)
    (vv : list string) :
  RequestHeaders (config f) = [] →
  Header r !! name = Some vv →
  name ∉ hopHeaders → name ∉ builderHeaders → name ∉ staticNames f →
  (RequestWithBody (config f) = true → name ≠ "Content-Type") →
  shadowHeaders f r !! name = Some (vv ++ vv)%list.
Proof.
  intros Hall Hin Hhop Hb Hst Hct.
  rewrite shadowHeaders_other by auto.
  rewrite decide_False by done.
  unfold copiedHeaders. rewrite Hall. simpl. by rewrite lookup_fmap, Hin.
Qed.

Lemma copy_all_keeps_inbound_headers_witness :
  ∃ trace pool' q h rest,
    ServeHTTP (unreachable false) [] inbound = Ok (trace, pool')
    ∧ dispatchedRequests trace = [q] ∧ fwd_Header q = Some h
    ∧ h !! "Accept" = Some (["text/html"; "application/json"] ++ rest)%list
    ∧ ∀ v, v ∈ rest → v ∈ ["text/html"; "application/json"].
Proof.
  apply (copy_all_keeps_inbound_headers (unreachable false) [] inbound "Accept").
  - reflexivity.
  - reflexivity.
  - unfold hopHeaders. rewrite !not_elem_of_cons. repeat split; try discriminate.
    apply not_elem_of_nil.
  - unfold builderHeaders. rewrite !not_elem_of_cons. repeat split; try discriminate.
    apply not_elem_of_nil.
  - apply not_elem_of_nil.
  - discriminate.
Defined.

(** C6 as stated fails on one request in three ways: a hop-by-hop header is
    dropped, a header the builder computes is overwritten, and a copied
    header carries its values twice. *)
Lemma copied_headers_differ :
  RequestHeaders (config (unreachable false)) = []
  ∧ ∃ trace pool' q h,
      ServeHTTP (unreachable false) [] inbound = Ok (trace, pool')
      ∧ dispatchedRequests trace = [q] ∧ fwd_Header q = Some h
      ∧ Header inbound !! "Keep-Alive" = Some ["timeout=5"]
      ∧ h !! "Keep-Alive" = None
      ∧ Header inbound !! "X-Forwarded-Method" = Some ["DELETE"]
      ∧ h !! "X-Forwarded-Method" = Some ["POST"]
      ∧ Header inbound !! "Accept" = Some ["text/html"; "application/json"]
      ∧ h !! "Accept"
        = Some ["text/html"; "application/json"; "text/html"; "application/json"].
Proof.
  split; [reflexivity|].
  eexists _, _, _, _. split; [vm_compute; reflexivity|].
  split; [vm_compute; reflexivity|]. split; [reflexivity|]. by vm_compute.
Qed.

Section ForwardedFor.

Implicit Types (f : ForwardFilter) (req r : Request).
Implicit Types (m : gmap string (list string)).

Lemma forwardedHeaders_for req u0 m host port :
  SplitHostPort (RemoteAddr req) = Some (host, port) →
  forwardedHeaders req u0 m !! XForwardedFor = Some [forwardedFor req host].
Proof.
  intros Hs. unfold forwardedHeaders. rewrite Hs. unfold Set_.
  destruct (negb _), (TLS req);
    rewrite !(lookup_insert_ne (M := gmap string)) by (by vm_compute);
    apply lookup_insert_eq.
Qed.

Lemma shadowHeaders_for f r host port :
  SplitHostPort (RemoteAddr r) = Some (host, port) →
  XForwardedFor ∉ staticNames f →
  shadowHeaders f r !! XForwardedFor = Some [forwardedFor r host].
Proof.
  intros Hs Hk. unfold shadowHeaders.
  set (copied := copiedHeaders r (RequestHeaders (config f))).
  assert (Hbase : staticHeaders f (forwardedHeaders r (targetURL f r) copied)
                    !! XForwardedFor = Some [forwardedFor r host]).
  { rewrite staticHeaders_other by done. by apply (forwardedHeaders_for _ _ _ _ port). }
  rewrite <- Hbase.
  destruct (RequestWithBody (config f)); [|done].
  destruct (negb _); [|done]. unfold Set_. by apply lookup_insert_ne.
Qed.

End ForwardedFor.

(** C7, as amended.  When the peer address of the inbound request splits
    into host and port, and no static forward header is named
    [X-Forwarded-For], the shadow request carries exactly one
    [X-Forwarded-For] value: the host, or the inbound values joined with
    comma-space, then comma-space and the host. *)
Theorem forwarded_for_appends_peer (f : ForwardFilter) (pool : list ForwardRequest)
    (r : Request) (host port : string) :
  SplitHostPort (RemoteAddr r) = Some (host, port) →
  XForwardedFor ∉ staticNames f →
  ∃ trace pool' q h,
    ServeHTTP f pool r = Ok (trace, pool')
    ∧ dispatchedRequests trace = [q] ∧ fwd_Header q = Some h
    ∧ h !! XForwardedFor
      = Some [match Header r !! XForwardedFor with
              | Some prior => Join prior ", " +:+ ", " +:+ host
              | None => host
              end].
Proof.
  intros Hs Hk.
  destruct (ServeHTTP_observed f pool r) as (trace & pool' & Hrun & Hq & _).
  exists trace, pool', (shadowRequest f (requestPool_Get pool).1 r), (shadowHeaders f r).
  split; [done|]. split; [done|]. split; [apply shadowRequest_header|].
  by apply (shadowHeaders_for f r host port).
Qed.

(** The prior value "1.1.1.1" and the peer 2.2.2.2 give "1.1.1.1, 2.2.2.2". *)
Lemma forwarded_for_appends_peer_witness :
  Header inbound !! XForwardedFor = Some ["1.1.1.1"]
  ∧ RemoteAddr inbound = "2.2.2.2:51234"
  ∧ ∃ trace pool' q h,
      ServeHTTP (unreachable false) [] inbound = Ok (trace, pool')
      ∧ dispatchedRequests trace = [q] ∧ fwd_Header q = Some h
      ∧ h !! XForwardedFor = Some ["1.1.1.1, 2.2.2.2"].
Proof.
  split; [reflexivity|]. split; [reflexivity|].
  apply (forwarded_for_appends_peer (unreachable false) [] inbound "2.2.2.2" "51234").
  - reflexivity.
  - apply not_elem_of_nil.
Defined.

(** C7 as stated fails when the peer address has no port: the guard on
    [net.SplitHostPort] skips the header, and the shadow request carries no
    [X-Forwarded-For].  It also fails when a static forward header is named
    [For]: its constant replaces the chain. *)
Lemma forwarded_for_not_always_set :
  (SplitHostPort (RemoteAddr local) = None
   ∧ ∃ trace pool' q h,
       ServeHTTP (unreachable false) [] local = Ok (trace, pool')
       ∧ dispatchedRequests trace = [q] ∧ fwd_Header q = Some h
       ∧ h !! XForwardedFor = None)
  ∧ (∃ trace pool' q h,
       ServeHTTP staticFor [] inbound = Ok (trace, pool')
       ∧ dispatchedRequests trace = [q] ∧ fwd_Header q = Some h
       ∧ SplitHostPort (RemoteAddr inbound) = Some ("2.2.2.2", "51234")
       ∧ h !! XForwardedFor = Some ["9.9.9.9"]).
Proof.
  split.
  - split; [reflexivity|].
    eexists _, _, _, _. split; [vm_compute; reflexivity|].
    split; [vm_compute; reflexivity|]. split; [reflexivity|]. by vm_compute.
  - eexists _, _, _, _. split; [vm_compute; reflexivity|].
    split; [vm_compute; reflexivity|]. split; [reflexivity|]. by vm_compute.
Qed.

(** ** The two variants of writeHeader *)

Section Variants.

Implicit Types (req : Request) (q : ForwardRequest).

(** With a non-empty allowlist both variants build the map from a fresh
    one and agree, whatever header map the shadow request came with. *)
Lemma writeHeader_variants_agree req q allowed :
  allowed ≠ [] → NoAlloc.writeHeader req q allowed = writeHeader req q allowed.
Proof. intros Hne. by destruct allowed. Qed.

(** With the empty allowlist the variant without the allocation panics on
    a pool-fresh shadow request: in the copy loop when the inbound request
    has a header, at the [Set] of [Host] otherwise. *)
Lemma writeHeader_noalloc_panics req q u0 :
  fwd_Header q = None → fwd_URL q = Some u0 →
  NoAlloc.writeHeader req q [] = Panic nilMapPanic.
Proof.
  intros Hh Hu. unfold NoAlloc.writeHeader. simpl. rewrite Hh, copyAll_nil.
  destruct (decide _); [|done]. simpl. by apply (writeForwarded_nil _ _ u0).
Qed.

Lemma writeHeader_alloc_returns req q allowed u0 :
  fwd_URL q = Some u0 →
  ∃ q' h, writeHeader req q allowed = Ok q' ∧ fwd_Header q' = Some h.
Proof.
  intros Hu. eexists _, _. split; [by apply writeHeader_alloc|done].
Qed.

(** What the pool hands out has a nil header map, and what [ServeHTTP]
    puts back has one too. *)
Lemma pool_hands_out_nil_headers f pool r trace pool' :
  Forall (fun q => fwd_Header q = None) pool →
  ServeHTTP f pool r = Ok (trace, pool') →
  fwd_Header (requestPool_Get pool).1 = None
  ∧ Forall (fun q => fwd_Header q = None) pool'.
Proof.
  intros Hpool Hrun. rewrite ServeHTTP_run in Hrun. injection Hrun as _ <-.
  destruct pool as [|q0 pool]; simpl.
  - split; [done|]. by constructor.
  - inversion Hpool; subst. split; [done|]. by constructor.
Qed.

End Variants.

(** C10, at an input where the code departs from it.  On a pool-fresh
    shadow request (nil header map, target URL set) and the empty allowlist,
    the variant without the allocation panics with a write to a nil map,
    while the other variant returns the populated header map. *)
Theorem writeHeader_variants_differ_on_empty_allowlist :
  fwd_Header fresh = None
  ∧ NoAlloc.writeHeader inbound fresh [] = Panic nilMapPanic
  ∧ ∃ q' h, writeHeader inbound fresh [] = Ok q' ∧ fwd_Header q' = Some h
            ∧ h !! "Host" = Some ["auth.internal"].
Proof.
  split; [reflexivity|]. split; [by vm_compute|].
  eexists _, _. split; [vm_compute; reflexivity|]. split; [reflexivity|].
  by vm_compute.
Qed.

(** * Further properties of the code *)

(** ** The decision engine, path by path *)

Section Paths.

Implicit Types (f : ForwardFilter) (r : Request) (rw : ResponseWriter).
Implicit Types (m : gmap string (list string)).

Lemma allowlisted_set f response m header :
  header ∈ ResponseHeaders (config f) →
  Get (resp_Header response) header ≠ "" →
  allowlisted f response m !! CanonicalMIMEHeaderKey header
  = Some [Get (resp_Header response) header].
Proof.
  intros Hin Hv.
  assert (Hgen : ∀ l m0, header ∈ l →
            foldl (fun h hd =>
                     let v := Get (resp_Header response) hd in
                     if negb (String.eqb v "") then Set_ h hd v else h) m0 l
            !! CanonicalMIMEHeaderKey header
            = Some [Get (resp_Header response) header]).
  { induction l as [|hd l IH]; intros m0 Hl; [by apply elem_of_nil in Hl|].
    apply elem_of_cons in Hl as [<-|Hl]; [|by apply IH].
    simpl. rewrite (proj2 (eqb_empty_false _) Hv).
    clear IH.
    assert (Hkeep : ∀ l0 m1,
              m1 !! CanonicalMIMEHeaderKey header
              = Some [Get (resp_Header response) header] →
              foldl (fun h hd =>
                       let v := Get (resp_Header response) hd in
                       if negb (String.eqb v "") then Set_ h hd v else h) m1 l0
              !! CanonicalMIMEHeaderKey header
              = Some [Get (resp_Header response) header]).
    { induction l0 as [|hd l0 IH]; intros m1 Hm1; [done|].
      simpl. apply IH. destruct (negb _); [|done]. unfold Set_.
      destruct (decide (CanonicalMIMEHeaderKey hd = CanonicalMIMEHeaderKey header))
        as [E|E].
      - rewrite E, lookup_insert_eq. unfold Get. by rewrite E.
      - by rewrite lookup_insert_ne. }
    apply Hkeep. unfold Set_. apply lookup_insert_eq. }
  by apply Hgen.
Qed.

(** The relay calls nothing but the writer and the close of the response
    body. *)
Lemma respond_flat_map_nil {A} (g : event → list A) f response :
  (∀ k v, g (EvSetHeader k v) = []) → (∀ c, g (EvWriteHeader c) = []) →
  (∀ b, g (EvCopy b) = []) → g EvCloseResponseBody = [] →
  flat_map g (respond f response) = [].
Proof.
  intros HS HW HC HB. unfold respond, relayHeaders. rewrite !flat_map_app.
  replace (flat_map g (flat_map _ _)) with (@nil A).
  - simpl. rewrite HW. destruct (0 <? ContentLength response); [|done].
    simpl. by rewrite HC, HB.
  - induction (ResponseHeaders (config f)) as [|hd l IH]; [done|].
    simpl. rewrite flat_map_app, <- IH.
    destruct (negb _); [|done]. simpl. by rewrite HS.
Qed.

(** The events of the handling that are neither a dispatch nor a pool
    operation nor a close of the inbound body. *)
Lemma handled_flat_map_nil {A} (g : event → list A) f r out :
  (∀ x, g (EvLog x) = []) → (∀ x, g (EvNext x) = []) →
  (∀ k v, g (EvSetHeader k v) = []) → (∀ c, g (EvWriteHeader c) = []) →
  (∀ b, g (EvCopy b) = []) → g EvCloseResponseBody = [] →
  flat_map g (handled f r out) = [].
Proof.
  intros HL HN HS HW HC HB.
  assert (Hresp : ∀ response, flat_map g (respond f response) = [])
    by (intros response; by apply respond_flat_map_nil).
  unfold handled.
  destruct (do_result out) as [response|err [response|]]; simpl.
  - destruct (_ && _ && _); [by simpl; rewrite HN|].
    destruct (existsb _ _); simpl; [|apply Hresp].
    rewrite HL. destruct (String.eqb _ _); [by simpl; rewrite HN|apply Hresp].
  - rewrite HL. destruct (String.eqb _ _); [by simpl; rewrite HN|apply Hresp].
  - rewrite HL. destruct (String.eqb _ _); simpl; [by rewrite HN|by rewrite HW].
Qed.

Lemma rw_Header_respond f response rw :
  rw_Header (rwRun rw (respond f response)) = allowlisted f response (rw_Header rw).
Proof.
  unfold respond.
  change (rwRun rw (?a ++ ?b)%list) with (foldl rwStep rw (a ++ b)%list).
  rewrite foldl_app. fold (rwRun rw (relayHeaders f response)).
  rewrite rwRun_relayHeaders. simpl. unfold rwWriteHeader. simpl.
  destruct (rw_status rw), (0 <? ContentLength response); reflexivity.
Qed.

(** Whatever the outcome, the header map of the writer is left alone or
    receives the allowlisted headers of one response. *)
Lemma handled_writer_headers f r out rw :
  rw_Header (rwRun rw (handled f r out)) = rw_Header rw
  ∨ ∃ response, rw_Header (rwRun rw (handled f r out))
                = allowlisted f response (rw_Header rw).
Proof.
  unfold handled.
  destruct (do_result out) as [response|err [response|]]; simpl.
  - destruct (_ && _ && _); [by left|].
    destruct (existsb _ _); simpl.
    + destruct (String.eqb _ _); [by left|right].
      exists response. apply rw_Header_respond.
    + right. exists response. apply rw_Header_respond.
  - destruct (String.eqb _ _); [by left|right].
    exists response. apply rw_Header_respond.
  - destruct (String.eqb _ _); [by left|].
    left. unfold rwRun. simpl. unfold rwWriteHeader. by destruct (rw_status rw).
Qed.

End Paths.

(** X1. A 2xx response of zero content length passes, whatever the failure
    policy and even when its status is on the failure list: the downstream
    handler is called once, nothing is logged or written, and the request it
    sees carries the first value of every allowlisted header the authority
    sent, its other headers untouched. *)
Theorem zero_length_success_passes (f : ForwardFilter) (pool : list ForwardRequest)
    (r : Request) (response : Response) :
  do_result (dispatch f pool r) = DoOk response →
  200 ≤ StatusCode response < 300 →
  ContentLength response = 0 →
  ∃ trace pool' r',
    ServeHTTP f pool r = Ok (trace, pool')
    ∧ nextRequests trace = [r']
    ∧ writerEvents trace = []
    ∧ logged trace = []
    ∧ Method r' = Method r ∧ RequestURI r' = RequestURI r ∧ Host r' = Host r
    ∧ (∀ header, header ∈ ResponseHeaders (config f) →
         Get (resp_Header response) header ≠ "" →
         Header r' !! CanonicalMIMEHeaderKey header
         = Some [Get (resp_Header response) header])
    ∧ (∀ name, name ∉ canonicalHeaders (ResponseHeaders (config f)) →
         Header r' !! name = Header r !! name).
Proof.
  intros Hres H2xx Hlen.
  assert (Hpass : (200 <=? StatusCode response) && (StatusCode response <? 300)
                  && (ContentLength response =? 0) = true)
    by (apply pass_test; lia).
  assert (Hh : handled f r (dispatch f pool r)
               = [EvNext (mergeHeaders f response
                            (afterDispatch f r (dispatch f pool r)))]).
  { unfold handled. by rewrite Hres, Hpass. }
  set (r0 := afterDispatch f r (dispatch f pool r)) in *.
  assert (Hr0 : Method r0 = Method r ∧ RequestURI r0 = RequestURI r
                ∧ Host r0 = Host r ∧ Header r0 = Header r).
  { unfold r0, afterDispatch. by destruct (RequestWithBody (config f)). }
  destruct Hr0 as (HM & HU & HH & Hhd).
  eexists _, _, (mergeHeaders f response r0). split; [apply ServeHTTP_run|].
  unfold nextRequests, writerEvents, logged.
  rewrite !around_flat_map, !around_filter by done.
  fold (dispatch f pool r). rewrite Hh.
  split; [reflexivity|]. split; [reflexivity|]. split; [reflexivity|].
  split; [exact HM|]. split; [exact HU|]. split; [exact HH|].
  change (Header (mergeHeaders f response r0))
    with (allowlisted f response (Header r0)).
  rewrite Hhd. split.
  - intros header Hin Hv. by apply allowlisted_set.
  - intros name Hn. by apply allowlisted_other.
Qed.

Lemma zero_length_success_passes_witness :
  ∃ trace pool' r',
    ServeHTTP (Scenario.filterWith Scenario.okIsFailure
                 (mkDoOutcome (DoOk (mkResponse 200 "200 OK"
                                       {[ "X-Auth-User" := ["bob"; "eve"] ]} "" 0)) 0))
              [] Scenario.inbound = Ok (trace, pool')
    ∧ nextRequests trace = [r']
    ∧ writerEvents trace = []
    ∧ Header r' !! "X-Auth-User" = Some ["bob"]
    ∧ Header r' !! "Accept" = Some ["text/html"; "application/json"].
Proof.
  destruct (zero_length_success_passes
              (Scenario.filterWith Scenario.okIsFailure
                 (mkDoOutcome (DoOk (mkResponse 200 "200 OK"
                                       {[ "X-Auth-User" := ["bob"; "eve"] ]} "" 0)) 0))
              [] Scenario.inbound
              (mkResponse 200 "200 OK" {[ "X-Auth-User" := ["bob"; "eve"] ]} "" 0))
    as (trace & pool' & r' & Hrun & Hn & Hw & _ & _ & _ & _ & Hset & Hkeep).
  - reflexivity.
  - simpl. lia.
  - reflexivity.
  - exists trace, pool', r'. split; [exact Hrun|]. split; [exact Hn|].
    split; [exact Hw|]. split.
    + apply (Hset "X-Auth-User"); [simpl; by left|discriminate].
    + rewrite (Hkeep "Accept"); [reflexivity|].
      simpl. rewrite not_elem_of_cons. split; [discriminate|apply not_elem_of_nil].
Defined.

(** X2. A response that does not pass and whose status is not on the
    failure list is relayed under either policy: the handler is not called,
    nothing is logged, and the caller receives the status, the allowlisted
    headers and, when the content length is positive, the body. *)
Theorem unlisted_status_is_relayed (f : ForwardFilter) (pool : list ForwardRequest)
    (r : Request) (response : Response) :
  do_result (dispatch f pool r) = DoOk response →
  ¬ In (StatusCode response) (FailureStatusCode (config f)) →
  ¬ (200 ≤ StatusCode response < 300 ∧ ContentLength response = 0) →
  ∃ trace pool',
    ServeHTTP f pool r = Ok (trace, pool')
    ∧ nextCalls trace = 0%nat
    ∧ logged trace = []
    ∧ ∀ rw, rw_status rw = None →
        rwRun rw trace
        = mkResponseWriter (allowlisted f response (rw_Header rw))
            (Some (StatusCode response))
            (allowlisted f response (rw_Header rw))
            (if 0 <? ContentLength response
             then rw_body rw +:+ resp_Body response else rw_body rw).
Proof.
  intros Hres Hin Hnp.
  pose proof (handled_plain_status f r _ response Hres Hin Hnp) as Hh.
  destruct (ServeHTTP_observed f pool r)
    as (trace & pool' & Hrun & _ & _ & Hn & _ & _ & Hrw).
  exists trace, pool'. split; [exact Hrun|].
  split; [rewrite Hn, Hh; apply respond_next|].
  split.
  - rewrite ServeHTTP_run in Hrun. injection Hrun as <- _.
    unfold logged. rewrite around_flat_map by done.
    fold (dispatch f pool r). rewrite Hh. simpl. by apply respond_flat_map_nil.
  - intros rw Hs. rewrite Hrw, Hh. by apply rwRun_respond.
Qed.

Lemma unlisted_status_is_relayed_witness :
  ∃ trace pool',
    ServeHTTP (Scenario.answering FailureIgnore Setup.notFound) [] Scenario.inbound
    = Ok (trace, pool')
    ∧ nextCalls trace = 0%nat
    ∧ rw_status (rwRun freshWriter trace) = Some 404
    ∧ rw_body (rwRun freshWriter trace) = "nope"
    ∧ rw_sent (rwRun freshWriter trace) !! "X-Auth-User" = Some ["bob"].
Proof.
  destruct (unlisted_status_is_relayed
              (Scenario.answering FailureIgnore Setup.notFound) [] Scenario.inbound
              Setup.notFound) as (trace & pool' & Hrun & Hn & _ & Hrw).
  - reflexivity.
  - simpl. intros H. decompose [or] H; discriminate || done.
  - simpl. lia.
  - exists trace, pool'. split; [exact Hrun|]. split; [exact Hn|].
    rewrite (Hrw freshWriter eq_refl). repeat split.
Defined.

(** X3. When the dispatch returns an error together with a response and the
    policy is not [ignore], the error is logged and that response is
    relayed like any other; the handler is not called and no 502 is made up. *)
Theorem partial_response_is_relayed_on_abort (f : ForwardFilter)
    (pool : list ForwardRequest) (r : Request) (err : string) (response : Response) :
  do_result (dispatch f pool r) = DoErr err (Some response) →
  FailurePolicy (config f) ≠ FailureIgnore →
  ∃ trace pool',
    ServeHTTP f pool r = Ok (trace, pool')
    ∧ nextCalls trace = 0%nat
    ∧ logged trace = [err]
    ∧ ∀ rw, rw_status rw = None →
        rwRun rw trace
        = mkResponseWriter (allowlisted f response (rw_Header rw))
            (Some (StatusCode response))
            (allowlisted f response (rw_Header rw))
            (if 0 <? ContentLength response
             then rw_body rw +:+ resp_Body response else rw_body rw).
Proof.
  intros Hres Hpol.
  assert (Hh : handled f r (dispatch f pool r) = EvLog err :: respond f response).
  { unfold handled. rewrite Hres. simpl.
    destruct (String.eqb _ _) eqn:E; [by apply policy_test in E|done]. }
  destruct (ServeHTTP_observed f pool r)
    as (trace & pool' & Hrun & _ & _ & Hn & _ & _ & Hrw).
  exists trace, pool'. split; [exact Hrun|].
  split; [rewrite Hn, Hh; apply respond_next|].
  split.
  - rewrite ServeHTTP_run in Hrun. injection Hrun as <- _.
    unfold logged. rewrite around_flat_map by done.
    fold (dispatch f pool r). rewrite Hh. simpl.
    by rewrite respond_flat_map_nil.
  - intros rw Hs. rewrite Hrw, Hh.
    change (rwRun rw (EvLog err :: ?t)) with (rwRun rw t).
    by apply rwRun_respond.
Qed.

Lemma partial_response_is_relayed_on_abort_witness :
  ∃ trace pool',
    ServeHTTP (Scenario.filterWith (Scenario.baseConfig FailureAbort false) Setup.partial)
              [] Scenario.inbound = Ok (trace, pool')
    ∧ nextCalls trace = 0%nat
    ∧ logged trace = ["unexpected EOF"]
    ∧ rw_status (rwRun freshWriter trace) = Some 404.
Proof.
  destruct (partial_response_is_relayed_on_abort
              (Scenario.filterWith (Scenario.baseConfig FailureAbort false) Setup.partial)
              [] Scenario.inbound "unexpected EOF" Setup.notFound)
    as (trace & pool' & Hrun & Hn & Hl & Hrw).
  - reflexivity.
  - discriminate.
  - exists trace, pool'. split; [exact Hrun|]. split; [exact Hn|].
    split; [exact Hl|]. by rewrite (Hrw freshWriter eq_refl).
Defined.

(** X4. On no path does the filter write a response header whose name is
    not on the (canonical) response allowlist: such a name keeps the value
    the writer had before the run. *)
Theorem only_allowlisted_headers_reach_the_caller (f : ForwardFilter)
    (pool : list ForwardRequest) (r : Request) :
  ∃ trace pool',
    ServeHTTP f pool r = Ok (trace, pool')
    ∧ ∀ rw name,
        name ∉ canonicalHeaders (ResponseHeaders (config f)) →
        rw_Header (rwRun rw trace) !! name = rw_Header rw !! name.
Proof.
  destruct (ServeHTTP_observed f pool r)
    as (trace & pool' & Hrun & _ & _ & _ & _ & _ & Hrw).
  exists trace, pool'. split; [exact Hrun|].
  intros rw name Hn. rewrite Hrw.
  destruct (handled_writer_headers f r (dispatch f pool r) rw)
    as [-> | [response ->]]; [done|].
  by apply allowlisted_other.
Qed.

(** X5. Every run dispatches exactly one shadow request, first of all, and
    ends by putting one request back into the pool, reset to method GET with
    nil URL, header map and body; the inbound body is closed by the filter
    exactly when it mirrors it. *)
Theorem one_dispatch_then_reset (f : ForwardFilter) (pool : list ForwardRequest)
    (r : Request) :
  ∃ trace pool' q,
    ServeHTTP f pool r = Ok (trace, pool')
    ∧ head trace = Some (EvDo q)
    ∧ dispatchedRequests trace = [q]
    ∧ last trace = Some (EvPut (mkForwardRequest MethodGet None None None))
    ∧ putRequests trace = [mkForwardRequest MethodGet None None None]
    ∧ pool' = mkForwardRequest MethodGet None None None :: tail pool
    ∧ requestBodyCloses trace = (if RequestWithBody (config f) then 1 else 0)%nat.
Proof.
  eexists _, _, _. split; [apply ServeHTTP_run|].
  split; [reflexivity|].
  unfold dispatchedRequests, putRequests, requestBodyCloses.
  split.
  { rewrite around_flat_map by done. simpl. f_equal.
    by apply handled_flat_map_nil. }
  split.
  { rewrite app_comm_cons, app_assoc. apply last_snoc. }
  split.
  { simpl. rewrite !flat_map_app, handled_flat_map_nil by done.
    by destruct (RequestWithBody (config f)). }
  split.
  { by destruct pool. }
  simpl. rewrite !List.filter_app.
  assert (Hh : ∀ out, List.filter
                        (fun e => match e with EvCloseRequestBody => true | _ => false end)
                        (handled f r out) = []).
  { intros out. unfold handled.
    assert (Hresp : ∀ response,
               List.filter
                 (fun e => match e with EvCloseRequestBody => true | _ => false end)
                 (respond f response) = []).
    { intros response. unfold respond.
      rewrite !List.filter_app, relayHeaders_filter by done.
      by destruct (0 <? ContentLength response). }
    destruct (do_result out) as [response|err [response|]]; simpl.
    - destruct (_ && _ && _); [done|].
      destruct (existsb _ _); simpl; [|apply Hresp].
      destruct (String.eqb _ _); [done|apply Hresp].
    - destruct (String.eqb _ _); [done|apply Hresp].
    - by destruct (String.eqb _ _). }
  rewrite Hh. by destruct (RequestWithBody (config f)).
Qed.

(** X6. What an earlier request left in the pool does not reach a later
    shadow request: after any two runs, of any filters on any requests, the
    run of a filter on a request is the same from either pool. *)
Theorem pooled_request_carries_nothing_over (f1 f2 g : ForwardFilter)
    (pool1 pool2 : list ForwardRequest) (r1 r2 r : Request)
    (t1 t2 : list event) (p1 p2 : list ForwardRequest) :
  ServeHTTP f1 pool1 r1 = Ok (t1, p1) →
  ServeHTTP f2 pool2 r2 = Ok (t2, p2) →
  ∃ trace pa pb,
    ServeHTTP g p1 r = Ok (trace, pa) ∧ ServeHTTP g p2 r = Ok (trace, pb).
Proof.
  intros H1 H2.
  rewrite ServeHTTP_run in H1. injection H1 as _ <-.
  rewrite ServeHTTP_run in H2. injection H2 as _ <-.
  rewrite !ServeHTTP_run. unfold resetRequest. cbn [requestPool_Get fst snd].
  eexists _, _, _. split; reflexivity.
Qed.

Lemma pooled_request_carries_nothing_over_witness :
  ∃ t1 p1 t2 p2 trace pa pb,
    ServeHTTP Setup.selective [] Setup.typed = Ok (t1, p1)
    ∧ ServeHTTP (Scenario.unreachable false) [] Scenario.local = Ok (t2, p2)
    ∧ ServeHTTP (Scenario.unreachable false) p1 Scenario.inbound = Ok (trace, pa)
    ∧ ServeHTTP (Scenario.unreachable false) p2 Scenario.inbound = Ok (trace, pb).
Proof.
  destruct (ServeHTTP_observed Setup.selective [] Setup.typed)
    as (t1 & p1 & H1 & _).
  destruct (ServeHTTP_observed (Scenario.unreachable false) [] Scenario.local)
    as (t2 & p2 & H2 & _).
  destruct (pooled_request_carries_nothing_over
              Setup.selective (Scenario.unreachable false) (Scenario.unreachable false)
              [] [] Setup.typed Scenario.local Scenario.inbound t1 t2 p1 p2 H1 H2)
    as (trace & pa & pb & Ha & Hb).
  exists t1, p1, t2, p2, trace, pa, pb. by repeat split.
Defined.

(** ** Construction and the canonical form of header names *)

Section Canonical.

Implicit Types (s : string) (b : bool) (c : ascii).

Lemma canon_step_idem b c :
  let c' := if b && isLower c then toUpper c
            else if negb b && isUpper c then toLower c else c in
  (if b && isLower c' then toUpper c'
   else if negb b && isUpper c' then toLower c' else c') = c'.
Proof. destruct b, c as [[] [] [] [] [] [] [] []]; reflexivity. Qed.

Lemma canon_step_valid b c :
  validHeaderFieldByte c = true →
  validHeaderFieldByte (if b && isLower c then toUpper c
                        else if negb b && isUpper c then toLower c else c) = true.
Proof.
  destruct b, c as [[] [] [] [] [] [] [] []]; vm_compute; intros H;
    first [reflexivity | discriminate H].
Qed.

Lemma canonicalize_idem b s : canonicalize b (canonicalize b s) = canonicalize b s.
Proof.
  revert b. induction s as [|c s IH]; intros b; [done|].
  cbn [canonicalize]. cbv zeta.
  rewrite (canon_step_idem b c). f_equal. apply IH.
Qed.

Lemma canonicalize_valid b s : allValid s = true → allValid (canonicalize b s) = true.
Proof.
  revert b. induction s as [|c s IH]; intros b; [done|].
  cbn [canonicalize allValid]. cbv zeta.
  rewrite !andb_true_iff. intros [Hc Hs]. split; [by apply canon_step_valid|by apply IH].
Qed.

(** [CanonicalMIMEHeaderKey] is idempotent. *)
Lemma canonical_idem s :
  CanonicalMIMEHeaderKey (CanonicalMIMEHeaderKey s) = CanonicalMIMEHeaderKey s.
Proof.
  unfold CanonicalMIMEHeaderKey. destruct (allValid s) eqn:E.
  - by rewrite canonicalize_valid, canonicalize_idem.
  - by rewrite E.
Qed.

Lemma Get_canonical (h : gmap string (list string)) s :
  Get h (CanonicalMIMEHeaderKey s) = Get h s.
Proof. unfold Get. by rewrite canonical_idem. Qed.

Lemma copyAllowed_canonical (req : Request) (m : gmap string (list string))
    (l : list string) :
  copyAllowed req m (canonicalHeaders l) = copyAllowed req m l.
Proof.
  unfold copyAllowed, canonicalHeaders. revert m.
  induction l as [|hd l IH]; intros m; [done|].
  simpl. rewrite Get_canonical. unfold Set_. rewrite canonical_idem. apply IH.
Qed.

Lemma writeHeader_canonical (req : Request) (q : ForwardRequest) (l : list string) :
  writeHeader req q (canonicalHeaders l) = writeHeader req q l.
Proof.
  unfold writeHeader. rewrite copyAllowed_canonical.
  unfold canonicalHeaders. by rewrite length_map.
Qed.

End Canonical.

(** X7. The request allowlist is matched without regard to letter case: two
    allowlists whose names have the same canonical forms make [writeHeader]
    build the same shadow request. *)
Theorem request_allowlist_ignores_letter_case (req : Request) (q : ForwardRequest)
    (l1 l2 : list string) :
  canonicalHeaders l1 = canonicalHeaders l2 →
  writeHeader req q l1 = writeHeader req q l2.
Proof.
  intros H. rewrite <- (writeHeader_canonical req q l1), H.
  apply writeHeader_canonical.
Qed.

Lemma request_allowlist_ignores_letter_case_witness :
  writeHeader Scenario.inbound Scenario.fresh ["accept"; "x-trace"]
  = writeHeader Scenario.inbound Scenario.fresh ["ACCEPT"; "X-Trace"].
Proof.
  apply (request_allowlist_ignores_letter_case Scenario.inbound Scenario.fresh
           ["accept"; "x-trace"] ["ACCEPT"; "X-Trace"]).
  reflexivity.
Defined.

(** X8. [canonicalHeaders] keeps the length and the order of the list,
    canonicalizes every name, and is idempotent, so that the lists [New]
    stores are fixed by it. *)
Theorem canonicalHeaders_idempotent (l : list string) :
  canonicalHeaders (canonicalHeaders l) = canonicalHeaders l
  ∧ length (canonicalHeaders l) = length l
  ∧ ∀ i name, l !! i = Some name →
      canonicalHeaders l !! i = Some (CanonicalMIMEHeaderKey name).
Proof.
  unfold canonicalHeaders. split; [|split].
  - rewrite List.map_map. apply List.map_ext. intros a. apply canonical_idem.
  - apply length_map.
  - intros i name Hi.
    change (map CanonicalMIMEHeaderKey l) with (CanonicalMIMEHeaderKey <$> l).
    by rewrite list_lookup_fmap, Hi.
Qed.

Section Constructed.

Variable url_Parse : string → option URL.
Variable http_Client : Z → bool → ForwardRequest → DoOutcome.

Lemma New_with_timeout cfg handler :
  New url_Parse http_Client cfg = Some handler →
  0 < RequestTimeout cfg →
  ∃ f, handler = Remover (ServeHTTP f)
       ∧ client f = http_Client (RequestTimeout cfg) (InsecureSkipVerify cfg)
       ∧ url_Parse (Address cfg) = Some (u f)
       ∧ ForwardHeaders (config f) = ForwardHeaders cfg
       ∧ RequestWithBody (config f) = RequestWithBody cfg.
Proof.
  unfold New. intros H Ht. apply Z.ltb_lt in Ht. rewrite Ht in H.
  destruct (url_Parse (Address cfg)) as [u0|]; [|done].
  destruct (if String.eqb (FailurePolicy cfg) "" then _ else _); [|done].
  injection H as <-. eexists. by repeat split.
Qed.

End Constructed.

(** X9. [New] refuses a configuration exactly when its address does not
    parse or its failure policy is neither empty, "ignore" nor "abort". *)
Theorem New_refuses_exactly (url_Parse : string → option URL)
    (http_Client : Z → bool → ForwardRequest → DoOutcome) (cfg : Config) :
  New url_Parse http_Client cfg = None
  ↔ url_Parse (Address cfg) = None
    ∨ (FailurePolicy cfg ≠ "" ∧ FailurePolicy cfg ≠ FailureIgnore
       ∧ FailurePolicy cfg ≠ FailureAbort).
Proof.
  unfold New. destruct (url_Parse (Address cfg)) as [u0|]; [|by intuition].
  destruct (String.eqb (FailurePolicy cfg) "") eqn:E0.
  - apply String.eqb_eq in E0. split; [done|]. intros [?|[? _]]; done.
  - destruct (String.eqb (FailurePolicy cfg) FailureIgnore) eqn:E1.
    + apply String.eqb_eq in E1. simpl. split; [done|]. intros [?|(_ & ? & _)]; done.
    + destruct (String.eqb (FailurePolicy cfg) FailureAbort) eqn:E2; simpl.
      * apply String.eqb_eq in E2. split; [done|]. intros [?|(_ & _ & ?)]; done.
      * apply String.eqb_neq in E0, E1, E2. split; [|done]. intros _. by right.
Qed.

(** X10. With no failure policy, no positive timeout and no failure status
    configured, [New] installs the sanitizer in front of a filter whose
    policy is "ignore", whose failure statuses are 500, 502, 503 and 504,
    whose client has a timeout of 100 ms, and whose allowlists are the
    canonical forms of the configured ones; a positive timeout is the
    client's timeout. *)
Theorem New_fills_in_defaults (url_Parse : string → option URL)
    (http_Client : Z → bool → ForwardRequest → DoOutcome) (cfg : Config) (u0 : URL) :
  url_Parse (Address cfg) = Some u0 →
  FailurePolicy cfg = "" →
  FailureStatusCode cfg = [] →
  New url_Parse http_Client cfg
  = Some (Remover (ServeHTTP
       (mkForwardFilter
          (mkConfig (Address cfg) (InsecureSkipVerify cfg) (ForwardHeaders cfg)
                    (canonicalHeaders (RequestHeaders cfg)) (RequestWithBody cfg)
                    (RequestTimeout cfg) (canonicalHeaders (ResponseHeaders cfg))
                    "ignore" [500; 502; 503; 504])
          (http_Client (if 0 <? RequestTimeout cfg then RequestTimeout cfg else 100)
                       (InsecureSkipVerify cfg))
          u0))).
Proof.
  intros Hu Hp Hc. unfold New. by rewrite Hu, Hp, Hc.
Qed.

Lemma New_fills_in_defaults_witness :
  Address Setup.addressed = "http://auth.internal:9000"
  ∧ New Setup.parse Setup.clients Setup.addressed
    = Some (Remover (ServeHTTP
         (mkForwardFilter
            (mkConfig "http://auth.internal:9000" false [] [] false 0 []
                      "ignore" [500; 502; 503; 504])
            (Setup.clients 100 false) Scenario.authority))).
Proof.
  split; [reflexivity|].
  apply (New_fills_in_defaults Setup.parse Setup.clients Setup.addressed
           Scenario.authority); reflexivity.
Defined.

(** ** The shadow request, header by header *)

Section Selected.

Implicit Types (f : ForwardFilter) (req r : Request) (name header : string).
Implicit Types (m src : gmap string (list string)) (l : list string).

(** The two allowlist loops write, for each name in turn, the first value
    found under it when that value is not empty. *)
Lemma copyAllowed_fold req m l :
  copyAllowed req m l
  = foldl (fun h hd =>
             let v := Get (Header req) hd in
             if negb (String.eqb v "") then Set_ h hd v else h) m l.
Proof.
  unfold copyAllowed. revert m. induction l as [|hd l IH]; intros m; [done|].
  simpl. rewrite <- IH. by destruct (String.eqb _ _).
Qed.

Lemma setFrom_set src l m header :
  header ∈ l → Get src header ≠ "" →
  foldl (fun h hd =>
           let v := Get src hd in
           if negb (String.eqb v "") then Set_ h hd v else h) m l
  !! CanonicalMIMEHeaderKey header = Some [Get src header].
Proof.
  intros Hin Hv.
  assert (Hkeep : ∀ l0 m1,
            m1 !! CanonicalMIMEHeaderKey header = Some [Get src header] →
            foldl (fun h hd =>
                     let v := Get src hd in
                     if negb (String.eqb v "") then Set_ h hd v else h) m1 l0
            !! CanonicalMIMEHeaderKey header = Some [Get src header]).
  { induction l0 as [|hd l0 IH]; intros m1 Hm1; [done|].
    simpl. apply IH. destruct (negb _); [|done]. unfold Set_.
    destruct (decide (CanonicalMIMEHeaderKey hd = CanonicalMIMEHeaderKey header))
      as [E|E].
    - rewrite E, lookup_insert_eq. unfold Get. by rewrite E.
    - by rewrite lookup_insert_ne. }
  revert m. induction l as [|hd l IH]; intros m; [by apply elem_of_nil in Hin|].
  apply elem_of_cons in Hin as [<-|Hin]; [|by apply IH].
  simpl. rewrite (proj2 (eqb_empty_false _) Hv).
  apply Hkeep. unfold Set_. apply lookup_insert_eq.
Qed.

Lemma setFrom_skip src l m name :
  (∀ hd, hd ∈ l → CanonicalMIMEHeaderKey hd = name → Get src hd = "") →
  foldl (fun h hd =>
           let v := Get src hd in
           if negb (String.eqb v "") then Set_ h hd v else h) m l
  !! name = m !! name.
Proof.
  revert m. induction l as [|hd l IH]; intros m Hl; [done|].
  simpl. rewrite IH by (intros hd' Hin; apply Hl; by right).
  destruct (negb _) eqn:E; [|done].
  apply eqb_empty_false in E. unfold Set_. apply lookup_insert_ne.
  intros Hk. apply E, Hl; [by left|done].
Qed.

Lemma copyAllowed_listed req l header :
  header ∈ l →
  copyAllowed req ∅ l !! CanonicalMIMEHeaderKey header
  = if String.eqb (Get (Header req) header) "" then None
    else Some [Get (Header req) header].
Proof.
  intros Hin. rewrite copyAllowed_fold.
  destruct (String.eqb _ _) eqn:E.
  - apply String.eqb_eq in E. rewrite setFrom_skip; [done|].
    intros hd _ Hk. unfold Get in *. by rewrite Hk.
  - apply String.eqb_neq in E. by apply setFrom_set.
Qed.

Lemma copyAllowed_unlisted req l name :
  name ∉ canonicalHeaders l → copyAllowed req ∅ l !! name = None.
Proof.
  intros Hn. rewrite copyAllowed_fold, setFrom_skip; [done|].
  intros hd Hin Hk. exfalso. apply Hn. unfold canonicalHeaders.
  rewrite <- Hk. change (map CanonicalMIMEHeaderKey l) with (CanonicalMIMEHeaderKey <$> l).
  by apply list_elem_of_fmap_2.
Qed.

Lemma copiedHeaders_allowlist req l :
  l ≠ [] → copiedHeaders req l = copyAllowed req ∅ l.
Proof. intros Hl. unfold copiedHeaders. by destruct l. Qed.

Lemma Hostname_target f r : Hostname (targetURL f r) = Hostname (u f).
Proof. unfold targetURL. by destruct (String.eqb _ _). Qed.

Lemma forwardedHeaders_written req u0 m :
  forwardedHeaders req u0 m !! "Host" = Some [Hostname u0]
  ∧ forwardedHeaders req u0 m !! xForwardedMethod = Some [Method req]
  ∧ forwardedHeaders req u0 m !! XForwardedHost = Some [Host req]
  ∧ forwardedHeaders req u0 m !! XForwardedUri = Some [RequestURI req]
  ∧ forwardedHeaders req u0 m !! XForwardedProto
    = Some [if negb (String.eqb (Get (Header req) XForwardedProto) "")
            then Get (Header req) XForwardedProto
            else if TLS req then "https" else "http"].
Proof.
  unfold forwardedHeaders, Set_.
  destruct (negb _), (TLS req), (SplitHostPort (RemoteAddr req)) as [[ip port]|];
    repeat split;
    rewrite ?(lookup_insert_ne (M := gmap string)) by (by vm_compute);
    apply lookup_insert_eq.
Qed.

(** The static forward headers: an entry whose header name no later entry
    repeats is on the map afterwards. *)
Lemma static_entry_written (l : list (string * string)) m k v :
  NoDup (map (fun kv => CanonicalMIMEHeaderKey ("X-Forwarded-" +:+ kv.1)) l) →
  (k, v) ∈ l →
  foldl (fun m kv => Set_ m ("X-Forwarded-" +:+ kv.1) kv.2) m l
  !! CanonicalMIMEHeaderKey ("X-Forwarded-" +:+ k) = Some [v].
Proof.
  revert m. induction l as [|kv l IH]; intros m Hnd Hin; [by apply elem_of_nil in Hin|].
  simpl in Hnd. apply NoDup_cons in Hnd as [Hfresh Hnd].
  apply elem_of_cons in Hin as [<-|Hin]; [|by apply IH].
  simpl. clear IH Hnd.
  assert (Hrest : ∀ (es : list (string * string)) m0,
            CanonicalMIMEHeaderKey ("X-Forwarded-" +:+ k)
            ∉ map (fun kv => CanonicalMIMEHeaderKey ("X-Forwarded-" +:+ kv.1)) es →
            foldl (fun m kv => Set_ m ("X-Forwarded-" +:+ kv.1) kv.2) m0 es
            !! CanonicalMIMEHeaderKey ("X-Forwarded-" +:+ k)
            = m0 !! CanonicalMIMEHeaderKey ("X-Forwarded-" +:+ k)).
  { induction es as [|kv0 es IH0]; intros m0 Hn; [done|].
    simpl in *. apply not_elem_of_cons in Hn as [Hne Hn].
    rewrite IH0 by done. unfold Set_. by apply lookup_insert_ne. }
  rewrite Hrest by done. unfold Set_. apply lookup_insert_eq.
Qed.

Lemma shadowHeaders_forwarded f r name :
  name ∈ builderHeaders → name ∉ staticNames f →
  shadowHeaders f r !! name
  = forwardedHeaders r (targetURL f r)
      (copiedHeaders r (RequestHeaders (config f))) !! name.
Proof.
  intros Hb Hs. unfold shadowHeaders.
  set (base := forwardedHeaders r (targetURL f r)
                 (copiedHeaders r (RequestHeaders (config f)))).
  rewrite <- (staticHeaders_other f base name Hs).
  generalize (staticHeaders f base). intros m0.
  destruct (RequestWithBody (config f)); [|done].
  destruct (negb _); [|done]. unfold Set_. apply lookup_insert_ne.
  unfold builderHeaders in Hb. rewrite !elem_of_cons, elem_of_nil in Hb.
  decompose [or] Hb; by subst.
Qed.

Lemma substring_all (s : string) (n : nat) :
  (String.length s ≤ n)%nat → substring 0 n s = s.
Proof.
  revert n. induction s as [|c s IH]; intros n Hn; [by destruct n|].
  destruct n as [|n]; simpl in *; [lia|]. f_equal. apply IH. lia.
Qed.

(** The requests the downstream handler can be called with. *)
Lemma handled_next_requests f r out r' :
  r' ∈ nextRequests (handled f r out) →
  r' = afterDispatch f r out
  ∨ ∃ response, r' = mergeHeaders f response (afterDispatch f r out).
Proof.
  assert (Hresp : ∀ response, nextRequests (respond f response) = [])
    by (intros response; by apply respond_flat_map_nil).
  unfold handled.
  destruct (do_result out) as [response|err [response|]]; simpl.
  - destruct (_ && _ && _).
    + simpl. rewrite list_elem_of_singleton. intros ->. right. by exists response.
    + destruct (existsb _ _); simpl; [|by rewrite Hresp; intros ?%elem_of_nil].
      destruct (String.eqb _ _); [|by rewrite Hresp; intros ?%elem_of_nil].
      simpl. rewrite list_elem_of_singleton. intros ->. by left.
  - destruct (String.eqb _ _); [|by rewrite Hresp; intros ?%elem_of_nil].
    simpl. rewrite list_elem_of_singleton. intros ->. by left.
  - destruct (String.eqb _ _); [|by intros ?%elem_of_nil].
    simpl. rewrite list_elem_of_singleton. intros ->. by left.
Qed.

End Selected.

(** X11. With a request allowlist, a listed header that the builder does not
    write itself reaches the shadow request with the first inbound value
    alone, and is left out when the inbound request has no such header or
    its first value is empty. *)
Theorem allowlist_forwards_first_value (f : ForwardFilter) (pool : list ForwardRequest)
    (r : Request) (header : string) :
  header ∈ RequestHeaders (config f) →
  CanonicalMIMEHeaderKey header ∉ hopHeaders →
  CanonicalMIMEHeaderKey header ∉ builderHeaders →
  CanonicalMIMEHeaderKey header ∉ staticNames f →
  (RequestWithBody (config f) = true → CanonicalMIMEHeaderKey header ≠ "Content-Type") →
  ∃ trace pool' q h,
    ServeHTTP f pool r = Ok (trace, pool')
    ∧ dispatchedRequests trace = [q] ∧ fwd_Header q = Some h
    ∧ h !! CanonicalMIMEHeaderKey header
      = if String.eqb (Get (Header r) header) "" then None
        else Some [Get (Header r) header].
Proof.
  intros Hin Hhop Hb Hst Hct.
  destruct (ServeHTTP_observed f pool r) as (trace & pool' & Hrun & Hq & _).
  exists trace, pool', (shadowRequest f (requestPool_Get pool).1 r), (shadowHeaders f r).
  split; [done|]. split; [done|]. split; [apply shadowRequest_header|].
  rewrite shadowHeaders_other by auto.
  rewrite decide_False by done.
  rewrite copiedHeaders_allowlist by (intros E; rewrite E in Hin; by apply elem_of_nil in Hin).
  by apply copyAllowed_listed.
Qed.

Lemma allowlist_forwards_first_value_witness :
  Header Setup.typed !! "Accept" = Some ["text/html"; "application/json"]
  ∧ ∃ trace pool' q h,
      ServeHTTP Setup.selective [] Setup.typed = Ok (trace, pool')
      ∧ dispatchedRequests trace = [q] ∧ fwd_Header q = Some h
      ∧ h !! "Accept" = Some ["text/html"].
Proof.
  split; [reflexivity|].
  apply (allowlist_forwards_first_value Setup.selective [] Setup.typed "accept").
  - change (RequestHeaders (config Setup.selective)) with ["accept"]. by left.
  - unfold hopHeaders. rewrite !not_elem_of_cons. repeat split; try discriminate.
    apply not_elem_of_nil.
  - unfold builderHeaders. rewrite !not_elem_of_cons. repeat split; try discriminate.
    apply not_elem_of_nil.
  - change (staticNames Setup.selective) with ["X-Forwarded-Env"].
    rewrite not_elem_of_cons. split; [discriminate|apply not_elem_of_nil].
  - discriminate.
Defined.

(** X12. With a request allowlist, a header whose name is not on it and that
    the builder does not write itself is not on the shadow request. *)
Theorem unlisted_headers_are_not_forwarded (f : ForwardFilter)
    (pool : list ForwardRequest) (r : Request) (name : string) :
  RequestHeaders (config f) ≠ [] →
  name ∉ canonicalHeaders (RequestHeaders (config f)) →
  name ∉ builderHeaders →
  name ∉ staticNames f →
  (RequestWithBody (config f) = true → name ≠ "Content-Type") →
  ∃ trace pool' q h,
    ServeHTTP f pool r = Ok (trace, pool')
    ∧ dispatchedRequests trace = [q] ∧ fwd_Header q = Some h
    ∧ h !! name = None.
Proof.
  intros Hne Hn Hb Hst Hct.
  destruct (ServeHTTP_observed f pool r) as (trace & pool' & Hrun & Hq & _).
  exists trace, pool', (shadowRequest f (requestPool_Get pool).1 r), (shadowHeaders f r).
  split; [done|]. split; [done|]. split; [apply shadowRequest_header|].
  rewrite shadowHeaders_other by auto.
  destruct (decide _); [done|].
  rewrite copiedHeaders_allowlist by done. by apply copyAllowed_unlisted.
Qed.

Lemma unlisted_headers_are_not_forwarded_witness :
  Header Setup.typed !! "X-Trace" = Some ["abc"]
  ∧ ∃ trace pool' q h,
      ServeHTTP Setup.selective [] Setup.typed = Ok (trace, pool')
      ∧ dispatchedRequests trace = [q] ∧ fwd_Header q = Some h
      ∧ h !! "X-Trace" = None.
Proof.
  split; [reflexivity|].
  apply (unlisted_headers_are_not_forwarded Setup.selective [] Setup.typed "X-Trace").
  - discriminate.
  - change (canonicalHeaders (RequestHeaders (config Setup.selective))) with ["Accept"].
    rewrite not_elem_of_cons. split; [discriminate|apply not_elem_of_nil].
  - unfold builderHeaders. rewrite !not_elem_of_cons. repeat split; try discriminate.
    apply not_elem_of_nil.
  - change (staticNames Setup.selective) with ["X-Forwarded-Env"].
    rewrite not_elem_of_cons. split; [discriminate|apply not_elem_of_nil].
  - discriminate.
Defined.

(** X13. The shadow request goes to the configured authority: its URL is
    the parsed address, with the inbound request URI as path when the
    address has none, and its [Host] header is the host name of the address,
    never the inbound host. *)
Theorem shadow_request_targets_authority (f : ForwardFilter)
    (pool : list ForwardRequest) (r : Request) :
  ∃ trace pool' q target h,
    ServeHTTP f pool r = Ok (trace, pool')
    ∧ dispatchedRequests trace = [q]
    ∧ fwd_URL q = Some target ∧ fwd_Header q = Some h
    ∧ url_Scheme target = url_Scheme (u f)
    ∧ url_Host target = url_Host (u f)
    ∧ url_RawQuery target = url_RawQuery (u f)
    ∧ url_Path target
      = (if String.eqb (url_Path (u f)) "" then RequestURI r else url_Path (u f))
    ∧ h !! "Host" = Some [Hostname (u f)].
Proof.
  destruct (ServeHTTP_observed f pool r) as (trace & pool' & Hrun & Hq & _).
  exists trace, pool', (shadowRequest f (requestPool_Get pool).1 r),
    (targetURL f r), (shadowHeaders f r).
  split; [done|]. split; [done|].
  split; [unfold shadowRequest; by destruct (RequestWithBody (config f))|].
  split; [apply shadowRequest_header|].
  split; [unfold targetURL; by destruct (String.eqb _ _)|].
  split; [unfold targetURL; by destruct (String.eqb _ _)|].
  split; [unfold targetURL; by destruct (String.eqb _ _)|].
  split; [unfold targetURL; by destruct (String.eqb _ _)|].
  rewrite shadowHeaders_forwarded.
  - rewrite <- (Hostname_target f r). apply forwardedHeaders_written.
  - by repeat constructor.
  - intros Hs. by apply staticNames_prefix in Hs.
Qed.

(** X14. The shadow request tells the authority the inbound request line:
    [X-Forwarded-Method], [X-Forwarded-Host] and [X-Forwarded-Uri] carry the
    inbound method, host and request URI, each unless a static forward
    header of that name replaces it. *)
Theorem forwarded_request_line (f : ForwardFilter) (pool : list ForwardRequest)
    (r : Request) :
  ∃ trace pool' q h,
    ServeHTTP f pool r = Ok (trace, pool')
    ∧ dispatchedRequests trace = [q] ∧ fwd_Header q = Some h
    ∧ (xForwardedMethod ∉ staticNames f → h !! xForwardedMethod = Some [Method r])
    ∧ (XForwardedHost ∉ staticNames f → h !! XForwardedHost = Some [Host r])
    ∧ (XForwardedUri ∉ staticNames f → h !! XForwardedUri = Some [RequestURI r]).
Proof.
  destruct (ServeHTTP_observed f pool r) as (trace & pool' & Hrun & Hq & _).
  exists trace, pool', (shadowRequest f (requestPool_Get pool).1 r), (shadowHeaders f r).
  split; [done|]. split; [done|]. split; [apply shadowRequest_header|].
  repeat split; intros Hs;
    (rewrite shadowHeaders_forwarded; [|by repeat constructor|done]);
    apply forwardedHeaders_written.
Qed.

(** X15. [X-Forwarded-Proto] on the shadow request is the first inbound
    [X-Forwarded-Proto] value when there is a non-empty one, and otherwise
    "https" for a TLS connection and "http" for a plain one. *)
Theorem forwarded_proto (f : ForwardFilter) (pool : list ForwardRequest) (r : Request) :
  XForwardedProto ∉ staticNames f →
  ∃ trace pool' q h,
    ServeHTTP f pool r = Ok (trace, pool')
    ∧ dispatchedRequests trace = [q] ∧ fwd_Header q = Some h
    ∧ h !! XForwardedProto
      = Some [if String.eqb (Get (Header r) XForwardedProto) ""
              then (if TLS r then "https" else "http")
              else Get (Header r) XForwardedProto].
Proof.
  intros Hs.
  destruct (ServeHTTP_observed f pool r) as (trace & pool' & Hrun & Hq & _).
  exists trace, pool', (shadowRequest f (requestPool_Get pool).1 r), (shadowHeaders f r).
  split; [done|]. split; [done|]. split; [apply shadowRequest_header|].
  rewrite shadowHeaders_forwarded; [|by repeat constructor|done].
  destruct (forwardedHeaders_written r (targetURL f r)
              (copiedHeaders r (RequestHeaders (config f))))
    as (_ & _ & _ & _ & ->).
  by destruct (String.eqb _ _).
Qed.

Lemma forwarded_proto_witness :
  TLS Setup.typed = true
  ∧ ∃ trace pool' q h,
      ServeHTTP Setup.selective [] Setup.typed = Ok (trace, pool')
      ∧ dispatchedRequests trace = [q] ∧ fwd_Header q = Some h
      ∧ h !! "X-Forwarded-Proto" = Some ["https"].
Proof.
  split; [reflexivity|].
  apply (forwarded_proto Setup.selective [] Setup.typed).
  change (staticNames Setup.selective) with ["X-Forwarded-Env"].
  rewrite not_elem_of_cons. split; [discriminate|apply not_elem_of_nil].
Defined.

(** X16. Every static forward header whose name no other entry repeats is on
    the shadow request as [X-Forwarded-<key>] with the configured value,
    also when the builder has computed a header of that name. *)
Theorem static_forward_headers_overwrite (f : ForwardFilter)
    (pool : list ForwardRequest) (r : Request) (k v : string) :
  NoDup (staticNames f) →
  (k, v) ∈ ForwardHeaders (config f) →
  ∃ trace pool' q h,
    ServeHTTP f pool r = Ok (trace, pool')
    ∧ dispatchedRequests trace = [q] ∧ fwd_Header q = Some h
    ∧ h !! CanonicalMIMEHeaderKey ("X-Forwarded-" +:+ k) = Some [v].
Proof.
  intros Hnd Hin.
  destruct (ServeHTTP_observed f pool r) as (trace & pool' & Hrun & Hq & _).
  exists trace, pool', (shadowRequest f (requestPool_Get pool).1 r), (shadowHeaders f r).
  split; [done|]. split; [done|]. split; [apply shadowRequest_header|].
  unfold shadowHeaders.
  assert (Hst : ∀ m, staticHeaders f m !! CanonicalMIMEHeaderKey ("X-Forwarded-" +:+ k)
                     = Some [v])
    by (intros m; by apply static_entry_written).
  destruct (RequestWithBody (config f)); [|apply Hst].
  destruct (negb _); [|apply Hst].
  unfold Set_. rewrite lookup_insert_ne; [apply Hst|].
  intros E. pose proof (canonical_forwarded_prefix k) as Hp.
  rewrite <- E in Hp. discriminate Hp.
Qed.

Lemma static_forward_headers_overwrite_witness :
  ∃ trace pool' q h,
    ServeHTTP Scenario.staticFor [] Scenario.inbound = Ok (trace, pool')
    ∧ dispatchedRequests trace = [q] ∧ fwd_Header q = Some h
    ∧ h !! "X-Forwarded-For" = Some ["9.9.9.9"].
Proof.
  apply (static_forward_headers_overwrite Scenario.staticFor [] Scenario.inbound
           "For" "9.9.9.9").
  - change (staticNames Scenario.staticFor) with ["X-Forwarded-For"].
    apply NoDup_cons. split; [apply not_elem_of_nil|apply NoDup_nil_2].
  - change (ForwardHeaders (config Scenario.staticFor)) with [("For", "9.9.9.9")].
    by left.
Defined.

(** X17. With body mirroring the shadow request is a POST whose body is the
    inbound body; it carries the first inbound [Content-Type] value when
    that is not empty, whatever the request allowlist, and no [Content-Type]
    when the inbound request has none. *)
Theorem mirrored_dispatch (f : ForwardFilter) (pool : list ForwardRequest)
    (r : Request) :
  RequestWithBody (config f) = true →
  ∃ trace pool' q h,
    ServeHTTP f pool r = Ok (trace, pool')
    ∧ dispatchedRequests trace = [q] ∧ fwd_Header q = Some h
    ∧ fwd_Method q = MethodPost
    ∧ fwd_Body q = Some (Body r)
    ∧ (Get (Header r) "Content-Type" ≠ "" →
       h !! "Content-Type" = Some [Get (Header r) "Content-Type"])
    ∧ (Header r !! "Content-Type" = None → h !! "Content-Type" = None).
Proof.
  intros Hm.
  destruct (ServeHTTP_observed f pool r) as (trace & pool' & Hrun & Hq & _).
  exists trace, pool', (shadowRequest f (requestPool_Get pool).1 r), (shadowHeaders f r).
  split; [done|]. split; [done|]. split; [apply shadowRequest_header|].
  unfold shadowRequest. rewrite Hm. split; [done|]. split; [done|]. split.
  - intros Hct. unfold shadowHeaders. rewrite Hm.
    rewrite (proj2 (eqb_empty_false _) Hct). unfold Set_. apply lookup_insert_eq.
  - intros Hnone. apply shadowHeaders_absent; [done| |].
    + unfold builderHeaders. rewrite !not_elem_of_cons.
      repeat split; try discriminate. apply not_elem_of_nil.
    + intros Hs. by apply staticNames_prefix in Hs.
Qed.

Lemma mirrored_dispatch_witness :
  ∃ trace pool' q h,
    ServeHTTP Setup.selective [] Setup.typed = Ok (trace, pool')
    ∧ dispatchedRequests trace = [q] ∧ fwd_Header q = Some h
    ∧ fwd_Method q = "POST"
    ∧ fwd_Body q = Some "{}"
    ∧ h !! "Content-Type" = Some ["application/json"].
Proof.
  destruct (mirrored_dispatch Setup.selective [] Setup.typed)
    as (trace & pool' & q & h & Hrun & Hq & Hh & HM & HB & Hct & _).
  - reflexivity.
  - exists trace, pool', q, h. repeat split; try done.
    apply Hct. discriminate.
Defined.

(** X18. The downstream handler, when it is called, sees the method, URI,
    host and peer address of the inbound request, and its whole body when
    the body is not mirrored or the client has read all of it; with
    mirroring it sees what the client has read, a prefix of the body. *)
Theorem handler_sees_inbound_request (f : ForwardFilter) (pool : list ForwardRequest)
    (r : Request) :
  ∃ trace pool',
    ServeHTTP f pool r = Ok (trace, pool')
    ∧ ∀ r', r' ∈ nextRequests trace →
        Method r' = Method r ∧ RequestURI r' = RequestURI r ∧ Host r' = Host r
        ∧ RemoteAddr r' = RemoteAddr r ∧ TLS r' = TLS r
        ∧ Body r' = (if RequestWithBody (config f)
                     then substring 0 (do_read (dispatch f pool r)) (Body r)
                     else Body r)
        ∧ (RequestWithBody (config f) = false
           ∨ (String.length (Body r) ≤ do_read (dispatch f pool r))%nat →
           Body r' = Body r).
Proof.
  destruct (ServeHTTP_observed f pool r)
    as (trace & pool' & Hrun & _ & Hreq & _).
  exists trace, pool'. split; [exact Hrun|].
  intros r' Hin. rewrite Hreq in Hin.
  assert (Hbody : Body r' = (if RequestWithBody (config f)
                             then substring 0 (do_read (dispatch f pool r)) (Body r)
                             else Body r)
                  ∧ Method r' = Method r ∧ RequestURI r' = RequestURI r
                  ∧ Host r' = Host r ∧ RemoteAddr r' = RemoteAddr r ∧ TLS r' = TLS r).
  { apply handled_next_requests in Hin as [-> | [response ->]];
      unfold mergeHeaders, afterDispatch, teeBuffer;
      by destruct (RequestWithBody (config f)). }
  destruct Hbody as (HB & HM & HU & HH & HR & HT).
  repeat split; try done.
  intros [Hm|Hlen]; rewrite HB.
  - by rewrite Hm.
  - destruct (RequestWithBody (config f)); [|done]. by apply substring_all.
Qed.

(** A mirrored body that the client has read to the end reaches the handler
    whole, also after a failed dispatch. *)
Lemma drained_body_reaches_handler :
  ∃ trace pool' r',
    ServeHTTP Setup.mirroring [] Scenario.inbound = Ok (trace, pool')
    ∧ nextRequests trace = [r'] ∧ Body r' = "payload".
Proof.
  eexists _, _, _. split; [vm_compute; reflexivity|]. by vm_compute.
Qed.

(** ** The sanitizer *)

(** X19. The sanitizer only removes: every header it leaves was on the
    inbound request with the same values, and a header other than
    [Connection] that no [Connection] value nominates is left as it was. *)
Theorem sanitizer_only_removes (h : gmap string (list string)) :
  sanitize h ⊆ h
  ∧ ∀ name, name ≠ connectionHeader → name ∉ connectionTokens h →
      sanitize h !! name = h !! name.
Proof.
  split.
  - apply map_subseteq_spec. intros name vv. rewrite sanitize_lookup.
    by destruct (decide _).
  - intros name Hne Hn. rewrite sanitize_lookup.
    rewrite decide_False; [done|]. tauto.
Qed.

(** X20. The header collections the sanitizer leaves unchanged are exactly
    those without a [Connection] header. *)
Theorem sanitizer_fixed_points (h : gmap string (list string)) :
  sanitize h = h ↔ h !! connectionHeader = None.
Proof.
  split.
  - intros E. rewrite <- E. apply sanitize_no_connection.
  - apply sanitize_fixed.
Qed.

(** X21. A [Connection] value is read as a comma-separated list whose
    pieces are trimmed of blanks and matched without regard to letter case:
    the header named by each non-empty piece is gone after the sanitizer. *)
Theorem nominated_headers_are_removed (h : gmap string (list string))
    (values : list string) (value piece : string) :
  h !! connectionHeader = Some values →
  value ∈ values →
  piece ∈ Split value "," →
  TrimString piece ≠ "" →
  sanitize h !! CanonicalMIMEHeaderKey (TrimString piece) = None.
Proof.
  intros Hc Hv Hp Ht. rewrite sanitize_lookup. rewrite decide_True; [done|].
  right. unfold connectionTokens. rewrite Hc. simpl.
  apply list_elem_of_In, in_flat_map. exists value.
  split; [by apply list_elem_of_In|].
  apply in_flat_map. exists piece. split; [by apply list_elem_of_In|].
  apply String.eqb_neq in Ht. rewrite Ht. by left.
Qed.

Lemma nominated_headers_are_removed_witness :
  Header Setup.typed !! "X-Trace" = Some ["abc"]
  ∧ sanitize (Header Setup.typed) !! "X-Trace" = None.
Proof.
  split; [reflexivity|].
  apply (nominated_headers_are_removed (Header Setup.typed)
           ["close, X-Trace "] "close, X-Trace " " X-Trace ").
  - reflexivity.
  - by left.
  - simpl. right. by left.
  - discriminate.
Defined.

(** ** The variant of writeHeader without the allocation *)

(** X22. On a shadow request as the pool hands it out (nil header map, URL
    set), the variant of [writeHeader] without the allocation panics for the
    empty allowlist, whatever the inbound request, and for every other
    allowlist returns what the allocating variant returns, without a
    panic. *)
Theorem noalloc_variant_on_pooled_request (req : Request) (q : ForwardRequest)
    (u0 : URL) (allowed : list string) :
  fwd_Header q = None →
  fwd_URL q = Some u0 →
  (allowed = [] → NoAlloc.writeHeader req q allowed = Panic nilMapPanic)
  ∧ (allowed ≠ [] →
     NoAlloc.writeHeader req q allowed = writeHeader req q allowed
     ∧ ∃ q', NoAlloc.writeHeader req q allowed = Ok q').
Proof.
  intros Hh Hu. split.
  - intros ->. unfold NoAlloc.writeHeader. simpl. rewrite Hh, copyAll_nil.
    destruct (decide _); [|done]. simpl. by apply (writeForwarded_nil _ _ u0).
  - intros Hne. destruct allowed as [|hd l]; [done|]. split; [reflexivity|].
    eexists. unfold NoAlloc.writeHeader. simpl.
    by apply (writeForwarded_alloc _ _ _ u0).
Qed.

Lemma noalloc_variant_on_pooled_request_witness :
  NoAlloc.writeHeader Scenario.local Scenario.fresh [] = Panic nilMapPanic
  ∧ NoAlloc.writeHeader Scenario.local Scenario.fresh ["Accept"]
    = writeHeader Scenario.local Scenario.fresh ["Accept"].
Proof.
  destruct (noalloc_variant_on_pooled_request Scenario.local Scenario.fresh
              Scenario.authority []) as [Hp _]; [reflexivity|reflexivity|].
  destruct (noalloc_variant_on_pooled_request Scenario.local Scenario.fresh
              Scenario.authority ["Accept"]) as [_ Ha]; [reflexivity|reflexivity|].
  split; [by apply Hp|]. by apply Ha.
Defined.

(** X23. The allocating variant of [writeHeader] panics only on a shadow
    request without URL.  With the URL set it returns, keeps the method, URL
    and body of the shadow request, and builds the header map from nothing:
    the result is the same whatever header map the shadow request came
    with. *)
Theorem writeHeader_starts_from_an_empty_map (req : Request) (q : ForwardRequest)
    (allowed : list string) :
  (fwd_URL q = None → writeHeader req q allowed = Panic nilPointerPanic)
  ∧ (∀ u0, fwd_URL q = Some u0 →
       ∃ q' h,
         writeHeader req q allowed = Ok q'
         ∧ fwd_Header q' = Some h
         ∧ fwd_Method q' = fwd_Method q ∧ fwd_URL q' = fwd_URL q
         ∧ fwd_Body q' = fwd_Body q
         ∧ ∀ stale, writeHeader req (setFwdHeader q stale) allowed = Ok q').
Proof.
  split.
  - intros Hu. unfold writeHeader.
    destruct (length allowed =? 0)%nat.
    + rewrite copyAll_alloc. simpl. unfold writeForwarded.
      by rewrite foldl_NDel_Some, Hu.
    + simpl. unfold writeForwarded. by rewrite foldl_NDel_Some, Hu.
  - intros u0 Hu. eexists _, _. split; [by apply (writeHeader_alloc _ _ _ u0)|].
    split; [reflexivity|]. split; [reflexivity|]. split; [reflexivity|].
    split; [reflexivity|].
    intros stale. by rewrite (writeHeader_alloc _ _ _ u0).
Qed.

(** X24. A filter built by [New] from a configuration without failure
    policy fails open: when the client cannot complete the dispatch, the
    installed handler calls the downstream handler once with the sanitized
    inbound headers and writes nothing to the caller. *)
Theorem default_policy_fails_open (url_Parse : string → option URL)
    (http_Client : Z → bool → ForwardRequest → DoOutcome) (cfg : Config)
    (handler : Handler) :
  New url_Parse http_Client cfg = Some handler →
  FailurePolicy cfg = "" →
  (∀ q, ∃ err response,
      do_result (http_Client (if 0 <? RequestTimeout cfg then RequestTimeout cfg
                              else DefaultForwardTimeout)
                             (InsecureSkipVerify cfg) q)
      = DoErr err response) →
  ∀ pool r,
    ∃ trace pool' r',
      handler pool r = Ok (trace, pool')
      ∧ nextRequests trace = [r']
      ∧ writerEvents trace = []
      ∧ Header r' = sanitize (Header r)
      ∧ Method r' = Method r ∧ RequestURI r' = RequestURI r.
Proof.
  intros HN Hp Hfail pool r. unfold New in HN.
  destruct (url_Parse (Address cfg)) as [u0|]; [|done].
  rewrite Hp in HN. simpl in HN. injection HN as <-.
  unfold Remover.
  set (f := mkForwardFilter _ _ u0).
  set (rs := setHeader r (sanitize (Header r))).
  destruct (Hfail (shadowRequest f (requestPool_Get pool).1 rs)) as (err & response & Hd).
  destruct (transport_failure_ignored f pool rs err response)
    as (trace & pool' & Hrun & Hreq & Hw); [exact Hd|reflexivity|].
  exists trace, pool', (afterDispatch f rs (dispatch f pool rs)).
  split; [exact Hrun|]. split; [exact Hreq|]. split; [exact Hw|].
  unfold afterDispatch. by destruct (RequestWithBody (config f)).
Qed.

Lemma default_policy_fails_open_witness :
  ∃ handler trace pool' r',
    New Setup.parse Setup.clients Setup.addressed = Some handler
    ∧ handler [] Setup.typed = Ok (trace, pool')
    ∧ nextRequests trace = [r']
    ∧ writerEvents trace = []
    ∧ Header r' = sanitize (Header Setup.typed).
Proof.
  destruct (default_policy_fails_open Setup.parse Setup.clients Setup.addressed
              (Remover (ServeHTTP
                 (mkForwardFilter
                    (mkConfig "http://auth.internal:9000" false [] [] false 0 []
                              "ignore" [500; 502; 503; 504])
                    (Setup.clients 100 false) Scenario.authority)))
              eq_refl eq_refl
              (fun q => ex_intro _ "dial tcp: connect: connection refused"
                          (ex_intro _ None eq_refl))
              [] Setup.typed)
    as (trace & pool' & r' & Hrun & Hreq & Hw & Hh & _).
  eexists _, trace, pool', r'. split; [reflexivity|]. by repeat split.
Defined.
